(** * dnsredir: upstream hosts, liveness probing and host selection

    A shallow embedding of [healthcheck.go] (package [redirect]).

    Go objects reached through pointers ([*UpstreamHost], [*dns.Client],
    [*Transport]) live in a store indexed by locations, so that two hosts
    holding the same [*Transport] really share it.  Code that touches the
    store is written in a small state-and-panic monad; the network, the
    clock and the random message id are supplied from outside. *)

From Stdlib Require Import ZArith String List Bool Lia.
From stdpp Require Import base option gmap strings list.

Local Open Scope string_scope.
Local Open Scope Z_scope.

(** ** Basic types *)

(** A location in the store.  A location with no object behind it plays the
    role of Go's [nil]: dereferencing it faults. *)
Definition loc := nat.

(** [time.Duration]: a count of nanoseconds. *)
Definition Duration := Z.
Definition Nanosecond : Duration := 1.
Definition Second : Duration := 1000000000 * Nanosecond.

(** Go's [error] values; [option Error] is an [error] that may be [nil]. *)
Definition Error := string.

(** [uint32] and [uint16] arithmetic, with the wrap-around written out. *)
Definition uint32_modulus : Z := 2 ^ 32.
Definition uint16_modulus : Z := 2 ^ 16.
Definition to_uint32 (z : Z) : Z := z mod uint32_modulus.
Definition to_uint16 (z : Z) : Z := z mod uint16_modulus.
Definition is_uint32 (z : Z) : Prop := 0 <= z < uint32_modulus.

(** [atomic.AddUint32(&x, delta)] and [atomic.StoreUint32(&x, v)], as
    functions on the cell's content. *)
Definition atomic_AddUint32 (x delta : Z) : Z := to_uint32 (x + delta).
Definition atomic_StoreUint32 (x v : Z) : Z := to_uint32 v.
Definition atomic_LoadUint32 (x : Z) : Z := x.

(** [*tls.Config]: the settings are opaque to this package, which only
    stores the pointer and tests it against [nil]. *)
Record tls_Config := mk_tls_Config {
  ServerName : string;
  InsecureSkipVerify : bool
}.

(** ** The DNS library's data (github.com/miekg/dns) *)

Definition dns_TypeNS : Z := 2.
Definition dns_ClassINET : Z := 1.
Definition dns_OpcodeQuery : Z := 0.
Definition dns_MinMsgSize : Z := 512.

Record dns_Question := mk_Question {
  Name : string;
  Qtype : Z;
  Qclass : Z
}.

Record dns_RR := mk_RR {
  rr_name : string;
  rr_type : Z;
  rr_class : Z;
  rr_ttl : Z;
  rr_data : string
}.

Record dns_Msg := mk_Msg {
  Id : Z;
  Response : bool;
  Opcode : Z;
  Authoritative : bool;
  Truncated : bool;
  RecursionDesired : bool;
  RecursionAvailable : bool;
  Zero : bool;
  AuthenticatedData : bool;
  CheckingDisabled : bool;
  Rcode : Z;
  Compress : bool;
  Question : list dns_Question;
  Answer : list dns_RR;
  Ns : list dns_RR;
  Extra : list dns_RR
}.

(** [&dns.Msg{}]: every field at its zero value. *)
Definition dns_Msg_zero : dns_Msg :=
  mk_Msg 0 false 0 false false false false false false false 0 false [] [] [] [].

(** [Msg.SetQuestion(z, t)] of the DNS library github.com/miekg/dns, which
    the package imports: the method assigns a freshly generated [Id], sets
    [RecursionDesired] to [true], and makes [Question] the one-element
    slice holding the question ([z], [t], [ClassINET]).  It touches no
    other field. *)
Definition SetQuestion (fresh_id : Z) (m : dns_Msg) (z : string) (t : Z) : dns_Msg :=
  mk_Msg fresh_id (Response m) (Opcode m) (Authoritative m) (Truncated m)
         true (RecursionAvailable m) (Zero m) (AuthenticatedData m)
         (CheckingDisabled m) (Rcode m) (Compress m)
         [mk_Question z t dns_ClassINET] (Answer m) (Ns m) (Extra m).

(** [dns.Client], the handle used for probing. *)
Record dns_Client := mk_Client {
  Net : string;
  UDPSize : Z;
  TLSConfig : option tls_Config;
  Timeout : Duration
}.

(** [*dns.Conn]: what this package reads and writes of a connection. *)
Record dns_Conn := mk_Conn {
  conn_id : nat;
  conn_UDPSize : Z;
  conn_writeDeadline : option Z;
  conn_readDeadline : option Z;
  conn_closed : bool
}.

(** ** The package's own data *)

(** [type Transport struct]. *)
Record Transport := mk_Transport {
  forceTcp : bool;
  preferUdp : bool;
  expire : Duration;
  tlsConfig : option tls_Config
}.

(** The fields of [UpstreamHost] other than the callback.  [c] and
    [transport] are pointers. *)
Record HostFields := mk_HostFields {
  addr : string;
  fails : Z;
  c : loc;
  transport : loc
}.

(** [type UpstreamHostDownFunc]: a predicate on a host pointer.  The callback is
    side-effect free by contract; it is handed the fields of the host it is
    called on. *)
Definition UpstreamHostDownFunc := HostFields -> bool.

(** [type UpstreamHost struct]; [downFunc = None] is the [nil] function. *)
Record UpstreamHost := mk_UpstreamHost {
  fields :> HostFields;
  downFunc : option UpstreamHostDownFunc
}.

(** [type UpstreamHostPool []*UpstreamHost]. *)
Definition UpstreamHostPool := list loc.

(** What the package hands to the logger: the trigger and its arguments. *)
Inductive LogEvent :=
  | Warn_dead (a proto : string) (err : Error)
  | Warn_malformed (a proto : string) (err : Error) (msg : dns_Msg)
  | Warn_no_downFunc (a : string)
  | Debug_marked_down (a : string).

(** The store: the objects behind the pointers, the log written so far, a
    record of every dispatch through the [Policy] interface, and the state
    of the process-wide random source that randomised policies draw from. *)
Record World := mk_World {
  host_objs : gmap nat UpstreamHost;
  client_objs : gmap nat dns_Client;
  transport_objs : gmap nat Transport;
  log_out : list LogEvent;
  policy_calls : list string;
  rand_state : N
}.

(** ** Computations: state passing with panics *)

Inductive Result (A : Type) :=
  | Ok (a : A)
  | Panic (msg : string).
Arguments Ok {A} a.
Arguments Panic {A} msg.

Definition M (A : Type) : Type := World -> Result (A * World).

Definition ret {A} (a : A) : M A := fun w => Ok (a, w).

Definition bind {A B} (m : M A) (k : A -> M B) : M B :=
  fun w => match m w with
           | Ok (a, w') => k a w'
           | Panic msg => Panic msg
           end.

Definition panic {A} (msg : string) : M A := fun _ => Panic msg.

Declare Scope go_scope.
Delimit Scope go_scope with go.
Notation "x <- m ;; k" := (bind m (fun x => k))
  (at level 100, m at next level, right associativity) : go_scope.
Notation "m ;;; k" := (bind m (fun _ => k))
  (at level 100, right associativity) : go_scope.
Local Open Scope go_scope.

Definition nil_deref : string :=
  "invalid memory address or nil pointer dereference".

Definition load_host (p : loc) : M UpstreamHost :=
  fun w => match host_objs w !! p with
           | Some uh => Ok (uh, w)
           | None => Panic nil_deref
           end.

Definition load_client (p : loc) : M dns_Client :=
  fun w => match client_objs w !! p with
           | Some cl => Ok (cl, w)
           | None => Panic nil_deref
           end.

Definition load_transport (p : loc) : M Transport :=
  fun w => match transport_objs w !! p with
           | Some tr => Ok (tr, w)
           | None => Panic nil_deref
           end.

Definition store_host (p : loc) (uh : UpstreamHost) : M unit :=
  fun w => Ok (tt, mk_World (<[p := uh]> (host_objs w)) (client_objs w)
                            (transport_objs w) (log_out w) (policy_calls w)
                            (rand_state w)).

Definition store_client (p : loc) (cl : dns_Client) : M unit :=
  fun w => Ok (tt, mk_World (host_objs w) (<[p := cl]> (client_objs w))
                            (transport_objs w) (log_out w) (policy_calls w)
                            (rand_state w)).

Definition store_transport (p : loc) (tr : Transport) : M unit :=
  fun w => Ok (tt, mk_World (host_objs w) (client_objs w)
                            (<[p := tr]> (transport_objs w)) (log_out w)
                            (policy_calls w)
                            (rand_state w)).

Definition logf (e : LogEvent) : M unit :=
  fun w => Ok (tt, mk_World (host_objs w) (client_objs w) (transport_objs w)
                            (log_out w ++ [e]) (policy_calls w)
                            (rand_state w)).

Definition note_policy_call (name : string) : M unit :=
  fun w => Ok (tt, mk_World (host_objs w) (client_objs w) (transport_objs w)
                            (log_out w) (policy_calls w ++ [name])
                            (rand_state w)).

(** Field updates, [x.f = v] in the source. *)
Definition set_Net (v : string) (cl : dns_Client) : dns_Client :=
  mk_Client v (UDPSize cl) (TLSConfig cl) (Timeout cl).
Definition set_TLSConfig (v : option tls_Config) (cl : dns_Client) : dns_Client :=
  mk_Client (Net cl) (UDPSize cl) v (Timeout cl).
Definition set_tlsConfig (v : option tls_Config) (tr : Transport) : Transport :=
  mk_Transport (forceTcp tr) (preferUdp tr) (expire tr) v.
Definition set_fails (v : Z) (uh : UpstreamHost) : UpstreamHost :=
  mk_UpstreamHost (mk_HostFields (addr uh) v (c uh) (transport uh)) (downFunc uh).

(** ** UpstreamHost: TLS configuration and dialing *)

(** [UpstreamHost.SetTLSConfig(config)]. *)
Definition SetTLSConfig (p : loc) (config : option tls_Config) : M unit :=
  uh <- load_host p ;;
  cl <- load_client (c uh) ;;
  store_client (c uh) (set_Net "tcp-tls" cl) ;;;
  cl <- load_client (c uh) ;;
  store_client (c uh) (set_TLSConfig config cl) ;;;
  tr <- load_transport (transport uh) ;;
  store_transport (transport uh) (set_tlsConfig config tr).

(** The call [Dial] makes into the DNS library. *)
Inductive DialCall :=
  | dns_DialTimeout (network address : string) (timeout : Duration)
  | dns_DialTimeoutWithTLS (network address : string)
                           (config : option tls_Config) (timeout : Duration).

Definition call_network (d : DialCall) : string :=
  match d with
  | dns_DialTimeout n _ _ => n
  | dns_DialTimeoutWithTLS n _ _ _ => n
  end.

Definition call_address (d : DialCall) : string :=
  match d with
  | dns_DialTimeout _ a _ => a
  | dns_DialTimeoutWithTLS _ a _ _ => a
  end.

Definition call_timeout (d : DialCall) : Duration :=
  match d with
  | dns_DialTimeout _ _ t => t
  | dns_DialTimeoutWithTLS _ _ _ t => t
  end.

(** The [switch] at the head of [Dial]. *)
Definition Dial_proto (tr : Transport) (proto : string) : string :=
  if bool_decide (tlsConfig tr <> None) then "tcp-tls"
  else if forceTcp tr then "tcp"
  else if preferUdp tr then "udp"
  else proto.

(** [Dial] up to the point where it enters the library. *)
Definition Dial_call (p : loc) (proto : string) : M DialCall :=
  uh <- load_host p ;;
  tr <- load_transport (transport uh) ;;
  let proto := Dial_proto tr proto in
  let timeout := 1 * Second in
  if bool_decide (proto = "tcp-tls") then
    ret (dns_DialTimeoutWithTLS proto (addr uh) (tlsConfig tr) timeout)
  else
    ret (dns_DialTimeout proto (addr uh) timeout).

(** ** What comes from outside the package *)

(** [request.Request] of the server framework, as far as [Exchange] uses
    it: the query, and the results of [state.Proto()] and [state.Size()]. *)
Record request_Request := mk_Request {
  Req : dns_Msg;
  req_Proto : string;
  req_Size : Z
}.

(** The network and the clock.  Every field is the result the library would
    hand back for the given call; nothing is assumed about them. *)
Record Outside := mk_Outside {
  lib_dial : DialCall -> dns_Conn + Error;
  conn_WriteMsg : dns_Conn -> dns_Msg -> option Error;
  conn_ReadMsg : dns_Conn -> option dns_Msg * option Error;
  client_Exchange :
    dns_Client -> dns_Msg -> string -> option dns_Msg * Duration * option Error;
  dns_Id : Z;
  time_Now : nat -> Z
}.

(** What [Exchange] leaves behind: the two results of the Go function and
    the connection it used, if it got one. *)
Record ExchangeResult := mk_ExchangeResult {
  ex_msg : option dns_Msg;
  ex_err : option Error;
  ex_conn : option dns_Conn
}.

Definition set_conn_UDPSize (v : Z) (cn : dns_Conn) : dns_Conn :=
  mk_Conn (conn_id cn) v (conn_writeDeadline cn) (conn_readDeadline cn)
          (conn_closed cn).
Definition SetWriteDeadline (t : Z) (cn : dns_Conn) : dns_Conn :=
  mk_Conn (conn_id cn) (conn_UDPSize cn) (Some t) (conn_readDeadline cn)
          (conn_closed cn).
Definition SetReadDeadline (t : Z) (cn : dns_Conn) : dns_Conn :=
  mk_Conn (conn_id cn) (conn_UDPSize cn) (conn_writeDeadline cn) (Some t)
          (conn_closed cn).

(** Modelled from the spec: the helper [Close], declared elsewhere in the
    package.  "[Exchange] unconditionally closes the connection on every
    exit path": the helper closes the connection it is given. *)
Definition Close (cn : dns_Conn) : dns_Conn :=
  mk_Conn (conn_id cn) (conn_UDPSize cn) (conn_writeDeadline cn)
          (conn_readDeadline cn) true.

(** The probe message of [send]: [ping := &dns.Msg{}] followed by
    [ping.SetQuestion(".", dns.TypeNS)]. *)
Definition send_ping (fresh_id : Z) : dns_Msg :=
  SetQuestion fresh_id dns_Msg_zero "." dns_TypeNS.

(** The test "something sane came back" of [send]. *)
Definition sane_reply (msg : dns_Msg) : bool :=
  Response msg || (Opcode msg =? dns_OpcodeQuery).

(** [proto := "udp"; if uh.c.Net != "" { proto = uh.c.Net }]. *)
Definition client_proto (cl : dns_Client) : string :=
  if bool_decide (Net cl <> "") then Net cl else "udp".

Section Host.

Context (out : Outside).
(** The package constant [defaultTimeout], declared outside this file. *)
Context (defaultTimeout : Duration).

(** [UpstreamHost.Dial(proto)]. *)
Definition Dial (p : loc) (proto : string) : M (dns_Conn + Error) :=
  call <- Dial_call p proto ;;
  ret (lib_dial out call).

(** [UpstreamHost.Exchange(ctx, state)].  [ctx] is unused. *)
Definition Exchange (p : loc) (state : request_Request) : M ExchangeResult :=
  r <- Dial p (req_Proto state) ;;
  match r with
  | inr err => ret (mk_ExchangeResult None (Some err) None)
  | inl conn =>
      let conn := set_conn_UDPSize (to_uint16 (req_Size state)) conn in
      let conn :=
        if conn_UDPSize conn <? dns_MinMsgSize
        then set_conn_UDPSize dns_MinMsgSize conn else conn in
      let conn := SetWriteDeadline (time_Now out 0 + defaultTimeout) conn in
      match conn_WriteMsg out conn (Req state) with
      | Some err => ret (mk_ExchangeResult None (Some err) (Some (Close conn)))
      | None =>
          let conn := SetReadDeadline (time_Now out 1 + defaultTimeout) conn in
          let '(msg, err) := conn_ReadMsg out conn in
          ret (mk_ExchangeResult msg err (Some (Close conn)))
      end
  end.

(** [UpstreamHost.send()]: the pair ([err], [rtt]). *)
Definition send (p : loc) : M (option Error * Duration) :=
  let ping := send_ping (dns_Id out) in
  uh <- load_host p ;;
  cl <- load_client (c uh) ;;
  let '(msg, rtt, err) := client_Exchange out cl ping (addr uh) in
  match err, msg with
  | Some e, Some m =>
      if sane_reply m then
        logf (Warn_malformed (addr uh) (client_proto cl) e m) ;;;
        ret (None, rtt)
      else ret (err, rtt)
  | _, _ => ret (err, rtt)
  end.

(** [UpstreamHost.Check()]. *)
Definition Check (p : loc) : M (option Error) :=
  uh <- load_host p ;;
  cl <- load_client (c uh) ;;
  let proto := client_proto cl in
  r <- send p ;;
  match fst r with
  | Some err =>
      uh <- load_host p ;;
      store_host p (set_fails (atomic_AddUint32 (fails uh) 1) uh) ;;;
      logf (Warn_dead (addr uh) proto err) ;;;
      ret (Some err)
  | None =>
      uh <- load_host p ;;
      store_host p (set_fails (atomic_StoreUint32 (fails uh) 0) uh) ;;;
      ret None
  end.

End Host.

(** [UpstreamHost.Down()]. *)
Definition Down (p : loc) : M bool :=
  uh <- load_host p ;;
  match downFunc uh with
  | None =>
      logf (Warn_no_downFunc (addr uh)) ;;;
      let fails := atomic_LoadUint32 (fails uh) in
      ret (0 <? fails)
  | Some f =>
      let down := f (fields uh) in
      (if down then logf (Debug_marked_down (addr uh)) else ret tt) ;;;
      ret down
  end.

(** ** Policies and the orchestrator *)

(** The interface [Policy]: one method, [Select(pool)].  An implementation
    may read the hosts, log, and draw from the random source. *)
Record Policy := mk_Policy {
  policy_name : string;
  policy_Select : UpstreamHostPool -> M (option loc)
}.

(** A call [pol.Select(pool)] through the interface. *)
Definition Policy_Select (pol : Policy) (pool : UpstreamHostPool) : M (option loc) :=
  note_policy_call (policy_name pol) ;;;
  policy_Select pol pool.

(** [chan struct{}] on which nothing is ever sent: open or closed. *)
Record Chan := mk_Chan { chan_closed : bool }.

(** [type HealthCheck struct].  [wg] is the counter of the [sync.WaitGroup];
    [stopChan = None] is the [nil] channel. *)
Record HealthCheck := mk_HealthCheck {
  wg : Z;
  stopChan : option Chan;
  hosts : UpstreamHostPool;
  policy : option Policy;
  spray : option Policy;
  maxFails : Z;
  checkInterval : Duration;
  hc_transport : loc
}.

Definition set_stopChan (v : option Chan) (hc : HealthCheck) : HealthCheck :=
  mk_HealthCheck (wg hc) v (hosts hc) (policy hc) (spray hc) (maxFails hc)
                 (checkInterval hc) (hc_transport hc).
Definition set_wg (v : Z) (hc : HealthCheck) : HealthCheck :=
  mk_HealthCheck v (stopChan hc) (hosts hc) (policy hc) (spray hc) (maxFails hc)
                 (checkInterval hc) (hc_transport hc).

Definition is_nil {A} (o : option A) : bool :=
  match o with None => true | Some _ => false end.

(** The loop of [Select] that computes [allDown]; it stops at the first
    host that is not down. *)
Fixpoint scan_allDown (pool : UpstreamHostPool) : M bool :=
  match pool with
  | [] => ret true
  | host :: rest =>
      d <- Down host ;;
      if negb d then ret false else scan_allDown rest
  end.

(** [if hc.spray == nil { return nil }; return hc.spray.Select(pool)]. *)
Definition spray_or_nil (hc : HealthCheck) (pool : UpstreamHostPool) : M (option loc) :=
  match spray hc with
  | None => ret None
  | Some s => Policy_Select s pool
  end.

(** The test [h != nil] on the host pointer a policy handed back.  The
    pointer is [nil] when the policy returned none, and also when it
    returned a location with no object behind it, which is how a [nil]
    entry of the pool reads. *)
Definition not_nil (h : option loc) : M bool :=
  fun w => Ok (match h with
               | Some l => match host_objs w !! l with
                           | Some _ => true
                           | None => false
                           end
               | None => false
               end, w).

Section Orchestrator.

(** The built-in policy [Random], declared outside this file. *)
Context (Random : Policy).

(** [HealthCheck.Select()]. *)
Definition Select (hc : HealthCheck) : M (option loc) :=
  let pool := hosts hc in
  if bool_decide (length pool = 1%nat) then
    match pool with
    | pool0 :: _ =>
        d <- Down pool0 ;;
        if d && is_nil (spray hc) then ret None else ret (Some pool0)
    | [] => panic "index out of range [0] with length 0"
    end
  else
    allDown <- scan_allDown pool ;;
    if allDown then spray_or_nil hc pool
    else
      match policy hc with
      | None =>
          h <- Policy_Select Random pool ;;
          ok <- not_nil h ;;
          if ok then ret h else spray_or_nil hc pool
      | Some pol =>
          h <- Policy_Select pol pool ;;
          ok <- not_nil h ;;
          if ok then ret h else spray_or_nil hc pool
      end.

End Orchestrator.

(** ** Lifecycle of the prober *)

(** The goroutines the orchestrator launches: the worker of [Start], at one
    of its program points, and the probes of [healthCheck]. *)
Inductive WorkerPC := W_entry | W_select | W_returned.

Inductive Goroutine :=
  | G_worker (pc : WorkerPC)
  | G_check (host : loc).

(** The orchestrator together with the goroutines it has launched. *)
Record Proc := mk_Proc {
  proc_hc : HealthCheck;
  proc_goroutines : list Goroutine
}.

(** [sync.WaitGroup.Add]: a negative counter faults. *)
Definition WaitGroup_Add (counter delta : Z) : Result Z :=
  let n := counter + delta in
  if n <? 0 then Panic "sync: negative WaitGroup counter" else Ok n.

(** [make(chan struct{})] and [close(ch)]. *)
Definition make_chan : Chan := mk_Chan false.

Definition close_chan (ch : option Chan) : Result Chan :=
  match ch with
  | None => Panic "close of nil channel"
  | Some (mk_Chan true) => Panic "close of closed channel"
  | Some (mk_Chan false) => Ok (mk_Chan true)
  end.

(** [HealthCheck.Start()]. *)
Definition Start (pr : Proc) : Result Proc :=
  let hc := set_stopChan (Some make_chan) (proc_hc pr) in
  if bool_decide (checkInterval hc <> 0) then
    match WaitGroup_Add (wg hc) 1 with
    | Ok n => Ok (mk_Proc (set_wg n hc) (proc_goroutines pr ++ [G_worker W_entry]))
    | Panic msg => Panic msg
    end
  else Ok (mk_Proc hc (proc_goroutines pr)).

(** How a call of [Stop] ends: it returns, it faults, or it is parked in
    [wg.Wait()] until the counter reaches zero. *)
Inductive StopOutcome :=
  | Stop_returns (pr : Proc)
  | Stop_panics (msg : string)
  | Stop_waits (pr : Proc).

(** [HealthCheck.Stop()]. *)
Definition Stop (pr : Proc) : StopOutcome :=
  match close_chan (stopChan (proc_hc pr)) with
  | Panic msg => Stop_panics msg
  | Ok ch =>
      let pr' := mk_Proc (set_stopChan (Some ch) (proc_hc pr)) (proc_goroutines pr) in
      if wg (proc_hc pr') =? 0 then Stop_returns pr' else Stop_waits pr'
  end.

(** [HealthCheck.healthCheck()]: one probe goroutine per host. *)
Definition healthCheck (pr : Proc) : Proc :=
  mk_Proc (proc_hc pr) (proc_goroutines pr ++ map G_check (hosts (proc_hc pr))).

Definition stop_signalled (hc : HealthCheck) : bool :=
  match stopChan hc with
  | Some ch => chan_closed ch
  | None => false
  end.

(** [time.NewTicker(d)] of the standard library faults for an interval
    that is not positive. *)
Definition time_NewTicker (d : Duration) : Result unit :=
  if d <=? 0 then Panic "non-positive interval for NewTicker" else Ok tt.

(** One move of the worker goroutine of [Start], from program point [pc].
    The first move runs the immediate probe cycle and creates the ticker,
    which faults for an interval that is not positive.  In the later moves
    [tick] tells whether the ticker has fired; when both cases of the
    [select] are ready the scheduler may take either one, which [take_tick]
    decides.  A worker with nothing ready stays where it is. *)
Definition worker_step (tick take_tick : bool) (pc : WorkerPC) (pr : Proc)
  : Result (WorkerPC * Proc) :=
  match pc with
  | W_entry =>
      let pr' := healthCheck pr in
      match time_NewTicker (checkInterval (proc_hc pr')) with
      | Ok _ => Ok (W_select, pr')
      | Panic msg => Panic msg
      end
  | W_select =>
      let stop := stop_signalled (proc_hc pr) in
      if tick && (negb stop || take_tick) then Ok (W_select, healthCheck pr)
      else if stop then
        match WaitGroup_Add (wg (proc_hc pr)) (-1) with
        | Ok n => Ok (W_returned, mk_Proc (set_wg n (proc_hc pr)) (proc_goroutines pr))
        | Panic msg => Panic msg
        end
      else Ok (W_select, pr)
  | W_returned => Ok (W_returned, pr)
  end.



(** ** Vocabulary of the statements *)

(** A store that differs from [w] only by log lines written after it. *)
Definition with_log (w : World) (es : list LogEvent) : World :=
  mk_World (host_objs w) (client_objs w) (transport_objs w)
           (log_out w ++ es) (policy_calls w) (rand_state w).

(** The store in which a policy's [Select] starts to run when it is called
    from store [w]: the call has been recorded, nothing else has changed. *)
Definition with_call (w : World) (name : string) : World :=
  mk_World (host_objs w) (client_objs w) (transport_objs w)
           (log_out w) (policy_calls w ++ [name]) (rand_state w).

(** The log lines one call of [Down] writes for a host. *)
Definition Down_log (uh : UpstreamHost) : list LogEvent :=
  match downFunc uh with
  | None => [Warn_no_downFunc (addr uh)]
  | Some f => if f (fields uh) then [Debug_marked_down (addr uh)] else []
  end.

(** Whether the host behind [p] is down in store [w], without the log
    traffic.  A dangling pointer has no verdict. *)
Definition down_in (w : World) (p : loc) : option bool :=
  match host_objs w !! p with
  | Some uh =>
      Some match downFunc uh with
           | None => 0 <? fails uh
           | Some f => f (fields uh)
           end
  | None => None
  end.

(** "Every host of the pool is down." *)
Definition all_down (w : World) (pool : UpstreamHostPool) : bool :=
  forallb (fun p => bool_decide (down_in w p = Some true)) pool.

(** A computation that never writes a host object, whatever it returns. *)
Definition keeps_hosts {A} (m : M A) : Prop :=
  forall w a w', m w = Ok (a, w') -> host_objs w' = host_objs w.

(** The verdict of one probe as [Check] sees it: the exchange yielded an
    error, and no message that is flagged as a response or carries the
    query opcode came with it. *)
Definition probe_failed (r : option dns_Msg * Duration * option Error) : bool :=
  let '(msg, _, err) := r in
  match err with
  | None => false
  | Some _ =>
      match msg with
      | Some m => negb (Response m || (Opcode m =? dns_OpcodeQuery))
      | None => true
      end
  end.

(** ** Sample configurations *)

Module Sample.

Definition cfg : tls_Config := mk_tls_Config "dns.example" false.
Definition plain : Transport := mk_Transport false false 0 None.
Definition clientA : dns_Client := mk_Client "" 0 None (2 * Second).
Definition clientB : dns_Client := mk_Client "tcp" 0 None (2 * Second).

Definition hostA : UpstreamHost :=
  mk_UpstreamHost (mk_HostFields "192.0.2.1:53" 0 1%nat 1%nat) None.
Definition hostB : UpstreamHost :=
  mk_UpstreamHost (mk_HostFields "192.0.2.2:53" 3 2%nat 1%nat) None.
(** A host that has failed as often as a [uint32] can count. *)
Definition hostC : UpstreamHost :=
  mk_UpstreamHost (mk_HostFields "192.0.2.3:53" 4294967295 1%nat 1%nat) None.
(** A host with a threshold callback: down from the third failure on. *)
Definition hostD : UpstreamHost :=
  mk_UpstreamHost (mk_HostFields "192.0.2.4:53" 1 2%nat 1%nat)
                  (Some (fun h => 3 <=? fails h)).

Definition world : World :=
  mk_World (<[1%nat := hostA]> (<[2%nat := hostB]> (<[3%nat := hostC]>
            (<[4%nat := hostD]> ∅))))
           (<[1%nat := clientA]> (<[2%nat := clientB]> ∅))
           (<[1%nat := plain]> ∅)
           [] [] 7%N.

Definition conn0 : dns_Conn := mk_Conn 0 0 None None false.

Definition reply : dns_Msg :=
  mk_Msg 1 true 0 false false false true false false false 0 false [] [] [] [].

(** A network on which dialing and forwarding work and every probe
    times out. *)
Definition dead_probes : Outside :=
  mk_Outside (fun _ => inl conn0)
             (fun _ _ => None)
             (fun _ => (Some reply, None))
             (fun _ _ _ => (None, 0, Some "i/o timeout"))
             4242
             (fun n => 1000 + Z.of_nat n).

(** A network on which probes are answered. *)
Definition live_probes : Outside :=
  mk_Outside (fun _ => inr "connection refused")
             (fun _ _ => None)
             (fun _ => (None, Some "EOF"))
             (fun _ _ _ => (Some reply, 5, None))
             4242
             (fun n => 1000 + Z.of_nat n).

(** An upstream that tells the two kinds of probe apart: it refuses a
    query that asks for recursion and answers one that does not. *)
Definition norec_only : Outside :=
  mk_Outside (fun _ => inr "connection refused")
             (fun _ _ => None)
             (fun _ => (None, Some "EOF"))
             (fun _ m _ => if RecursionDesired m
                           then (None, 0, Some "recursion refused")
                           else (Some reply, 5, None))
             4242
             (fun n => 1000 + Z.of_nat n).

(** Modelled from the spec: the built-in policy [Random], declared
    elsewhere in the package.  "Filters to currently-not-Down hosts,
    returns a uniformly random pick among them, or the no-candidate
    sentinel if none."  The pick is indexed by the random source. *)
Definition Random_pick (pool : UpstreamHostPool) : M (option loc) :=
  fun w =>
    let up := filter (fun p => down_in w p = Some false) pool in
    match up with
    | [] => Ok (None, w)
    | _ =>
        let i := (N.to_nat (rand_state w) mod length up)%nat in
        Ok (up !! i,
            mk_World (host_objs w) (client_objs w) (transport_objs w)
                     (log_out w) (policy_calls w) (N.succ (rand_state w)))
    end.

Definition Random : Policy := mk_Policy "random" Random_pick.

(** Modelled from the spec: the built-in policy [Spray].  "Ignores Down
    state entirely; selects via the same randomized strategy over the
    full pool." *)
Definition Spray_pick (pool : UpstreamHostPool) : M (option loc) :=
  fun w =>
    match pool with
    | [] => Ok (None, w)
    | _ =>
        let i := (N.to_nat (rand_state w) mod length pool)%nat in
        Ok (pool !! i,
            mk_World (host_objs w) (client_objs w) (transport_objs w)
                     (log_out w) (policy_calls w) (N.succ (rand_state w)))
    end.

Definition Spray : Policy := mk_Policy "spray" Spray_pick.

Definition hc_with (pool : UpstreamHostPool) (sp : option Policy)
                   (interval : Duration) : HealthCheck :=
  mk_HealthCheck 0 None pool None sp 3 interval 1%nat.

End Sample.

(** ** Repeated probing and the worker over time *)

(** [n] probes of the same host, one after the other, as the worker's
    successive cycles launch them. *)
Fixpoint Check_times (out : Outside) (p : loc) (n : nat) : M unit :=
  match n with
  | O => ret tt
  | S n' => Check out p ;;; Check_times out p n'
  end.

(** The worker goroutine over a sequence of scheduler moves; each move
    carries its [tick] and [take_tick]. *)
Fixpoint worker_run (moves : list (bool * bool)) (pc : WorkerPC) (pr : Proc)
  : Result (WorkerPC * Proc) :=
  match moves with
  | [] => Ok (pc, pr)
  | (tick, take_tick) :: rest =>
      match worker_step tick take_tick pc pr with
      | Ok (pc', pr') => worker_run rest pc' pr'
      | Panic msg => Panic msg
      end
  end.

(** The probe goroutines of [n] cycles over the pool. *)
Definition probe_cycles (n : nat) (pool : UpstreamHostPool) : list Goroutine :=
  concat (replicate n (map G_check pool)).

(** The log lines the scan of [Select] writes for the hosts of [pool], when
    it asks every one of them. *)
Definition Down_logs (w : World) (pool : UpstreamHostPool) : list LogEvent :=
  concat (map (fun p => match host_objs w !! p with
                        | Some uh => Down_log uh
                        | None => []
                        end) pool).

(** ** Running computations *)

Lemma bind_Ok {A B} (m : M A) (k : A -> M B) w a w1 :
  m w = Ok (a, w1) -> bind m k w = k a w1.
Proof. intros H. unfold bind. now rewrite H. Qed.

Lemma bind_Panic {A B} (m : M A) (k : A -> M B) w msg :
  m w = Panic msg -> bind m k w = Panic msg.
Proof. intros H. unfold bind. now rewrite H. Qed.

Lemma bind_inv {A B} (m : M A) (k : A -> M B) w b w2 :
  bind m k w = Ok (b, w2) ->
  exists a w1, m w = Ok (a, w1) /\ k a w1 = Ok (b, w2).
Proof.
  unfold bind. destruct (m w) as [[a w1]|msg]; [|discriminate].
  intros H. now exists a, w1.
Qed.

Lemma load_host_Ok w p uh :
  host_objs w !! p = Some uh -> load_host p w = Ok (uh, w).
Proof. intros H. unfold load_host. now rewrite H. Qed.

Lemma load_client_Ok w p cl :
  client_objs w !! p = Some cl -> load_client p w = Ok (cl, w).
Proof. intros H. unfold load_client. now rewrite H. Qed.

Lemma load_transport_Ok w p tr :
  transport_objs w !! p = Some tr -> load_transport p w = Ok (tr, w).
Proof. intros H. unfold load_transport. now rewrite H. Qed.

Lemma with_log_nil w : with_log w [] = w.
Proof. destruct w. unfold with_log. simpl. now rewrite app_nil_r. Qed.

Lemma with_log_app w es1 es2 :
  with_log (with_log w es1) es2 = with_log w (es1 ++ es2).
Proof. unfold with_log. simpl. now rewrite app_assoc. Qed.

Lemma logf_with_log e w : logf e w = Ok (tt, with_log w [e]).
Proof. reflexivity. Qed.

Lemma down_in_with_log w es p : down_in (with_log w es) p = down_in w p.
Proof. reflexivity. Qed.

Lemma all_down_with_log w es pool : all_down (with_log w es) pool = all_down w pool.
Proof. reflexivity. Qed.

(** ** Frame: who writes host objects *)

Lemma keeps_hosts_ret {A} (a : A) : keeps_hosts (ret a).
Proof. intros w a' w' H. unfold ret in H. now inversion H. Qed.

Lemma keeps_hosts_bind {A B} (m : M A) (k : A -> M B) :
  keeps_hosts m -> (forall a, keeps_hosts (k a)) -> keeps_hosts (bind m k).
Proof.
  intros Hm Hk w b w2 H.
  apply bind_inv in H as (a & w1 & H1 & H2).
  rewrite (Hk a _ _ _ H2). exact (Hm _ _ _ H1).
Qed.

Lemma keeps_hosts_load_host p : keeps_hosts (load_host p).
Proof.
  intros w a w' H. unfold load_host in H.
  destruct (host_objs w !! p); now inversion H.
Qed.

Lemma keeps_hosts_load_client p : keeps_hosts (load_client p).
Proof.
  intros w a w' H. unfold load_client in H.
  destruct (client_objs w !! p); now inversion H.
Qed.

Lemma keeps_hosts_load_transport p : keeps_hosts (load_transport p).
Proof.
  intros w a w' H. unfold load_transport in H.
  destruct (transport_objs w !! p); now inversion H.
Qed.

Lemma keeps_hosts_store_client p cl : keeps_hosts (store_client p cl).
Proof. intros w a w' H. unfold store_client in H. now inversion H. Qed.

Lemma keeps_hosts_store_transport p tr : keeps_hosts (store_transport p tr).
Proof. intros w a w' H. unfold store_transport in H. now inversion H. Qed.

Lemma keeps_hosts_logf e : keeps_hosts (logf e).
Proof. intros w a w' H. unfold logf in H. now inversion H. Qed.

Lemma keeps_hosts_note name : keeps_hosts (note_policy_call name).
Proof. intros w a w' H. unfold note_policy_call in H. now inversion H. Qed.

Create HintDb frame.
#[export] Hint Resolve keeps_hosts_ret keeps_hosts_load_host
  keeps_hosts_load_client keeps_hosts_load_transport keeps_hosts_store_client
  keeps_hosts_store_transport keeps_hosts_logf keeps_hosts_note : frame.

Ltac frame :=
  repeat first
    [ progress (auto with frame)
    | apply keeps_hosts_bind; [| intros ?]
    | match goal with
      | |- keeps_hosts (if ?b then _ else _) => destruct b
      | |- keeps_hosts (match ?x with _ => _ end) => destruct x
      end ].

Lemma keeps_hosts_SetTLSConfig p config : keeps_hosts (SetTLSConfig p config).
Proof. unfold SetTLSConfig. frame. Qed.

Lemma keeps_hosts_Dial_call p proto : keeps_hosts (Dial_call p proto).
Proof. unfold Dial_call. frame. Qed.

Lemma keeps_hosts_Dial out p proto : keeps_hosts (Dial out p proto).
Proof. unfold Dial. pose proof (keeps_hosts_Dial_call p proto). frame. Qed.

Lemma keeps_hosts_Exchange out dt p state : keeps_hosts (Exchange out dt p state).
Proof.
  unfold Exchange. pose proof (keeps_hosts_Dial out p (req_Proto state)).
  frame.
Qed.

Lemma keeps_hosts_Down p : keeps_hosts (Down p).
Proof. unfold Down. frame. Qed.

Lemma keeps_hosts_scan_allDown pool : keeps_hosts (scan_allDown pool).
Proof.
  induction pool as [|host rest IH]; simpl.
  - frame.
  - pose proof (keeps_hosts_Down host). frame.
Qed.

(** ** Down *)

Lemma Down_run w p (uh : UpstreamHost) :
  host_objs w !! p = Some uh ->
  exists d, down_in w p = Some d /\ Down p w = Ok (d, with_log w (Down_log uh)).
Proof.
  intros Hp. unfold Down, down_in, Down_log.
  rewrite (bind_Ok _ _ _ _ _ (load_host_Ok _ _ _ Hp)), Hp.
  destruct (downFunc uh) as [f|].
  - exists (f (fields uh)). split; [reflexivity|].
    destruct (f (fields uh)); cbn; [reflexivity|].
    unfold ret. now rewrite with_log_nil.
  - exists (0 <? fails uh). split; reflexivity.
Qed.

(** C4.  A host without [downFunc] is down exactly when [fails > 0]: no
    threshold enters the test, the first failure already marks it down.  A
    host with a [downFunc] is down exactly when [downFunc] says so of that
    host.  In both cases the call only adds to the log. *)
Theorem Down_default_and_custom (w : World) (p : loc) (uh : UpstreamHost) :
  host_objs w !! p = Some uh ->
  (downFunc uh = None ->
   exists d, Down p w = Ok (d, with_log w [Warn_no_downFunc (addr uh)]) /\
             (d = true <-> 0 < fails uh) /\
             (fails uh = 0 -> d = false) /\
             (1 <= fails uh -> d = true))
  /\
  (forall f, downFunc uh = Some f ->
   Down p w = Ok (f (fields uh),
                  with_log w (if f (fields uh)
                              then [Debug_marked_down (addr uh)] else []))).
Proof.
  intros Hp. destruct (Down_run w p uh Hp) as (d & Hd & Hrun).
  unfold down_in in Hd. rewrite Hp in Hd. unfold Down_log in Hrun.
  split.
  - intros Hnil. rewrite Hnil in Hd, Hrun. exists d. split; [exact Hrun|].
    injection Hd as <-. repeat split.
    + intros H. now apply Z.ltb_lt.
    + intros H. now apply Z.ltb_lt.
    + intros H. rewrite H. reflexivity.
    + intros H. apply Z.ltb_lt. lia.
  - intros f Hf. rewrite Hf in Hd, Hrun. injection Hd as <-. exact Hrun.
Qed.

Lemma Down_default_and_custom_witness :
  (downFunc Sample.hostB = None ->
   exists d, Down 2%nat Sample.world
             = Ok (d, with_log Sample.world [Warn_no_downFunc (addr Sample.hostB)]) /\
             (d = true <-> 0 < fails Sample.hostB) /\
             (fails Sample.hostB = 0 -> d = false) /\
             (1 <= fails Sample.hostB -> d = true))
  /\
  (forall f, downFunc Sample.hostB = Some f ->
   Down 2%nat Sample.world
   = Ok (f (fields Sample.hostB),
         with_log Sample.world (if f (fields Sample.hostB)
                                then [Debug_marked_down (addr Sample.hostB)]
                                else []))).
Proof.
  apply (Down_default_and_custom Sample.world 2%nat Sample.hostB).
  reflexivity.
Defined.

(** ** Dial *)

Lemma Dial_call_run w p (uh : UpstreamHost) tr proto :
  host_objs w !! p = Some uh ->
  transport_objs w !! transport uh = Some tr ->
  Dial_call p proto w =
    Ok (if bool_decide (Dial_proto tr proto = "tcp-tls")
        then dns_DialTimeoutWithTLS (Dial_proto tr proto) (addr uh)
                                    (tlsConfig tr) (1 * Second)
        else dns_DialTimeout (Dial_proto tr proto) (addr uh) (1 * Second), w).
Proof.
  intros Hp Ht. unfold Dial_call.
  rewrite (bind_Ok _ _ _ _ _ (load_host_Ok _ _ _ Hp)).
  rewrite (bind_Ok _ _ _ _ _ (load_transport_Ok _ _ _ Ht)).
  destruct (bool_decide (Dial_proto tr proto = "tcp-tls")); reflexivity.
Qed.

(** C7.  [Dial] enters the library with the protocol chosen by strict
    precedence, "tcp-tls" when the shared transport has a TLS
    configuration, else "tcp" when [forceTcp] is set, else "udp" when
    [preferUdp] is set, else the caller's protocol, and with a timeout of
    one second (10^9 ns); the result of that library call is what [Dial]
    returns. *)
Theorem Dial_precedence (out : Outside) (w : World) (p : loc)
    (uh : UpstreamHost) (tr : Transport) (proto : string) :
  host_objs w !! p = Some uh ->
  transport_objs w !! transport uh = Some tr ->
  exists call,
    Dial_call p proto w = Ok (call, w) /\
    Dial out p proto w = Ok (lib_dial out call, w) /\
    call_timeout call = 1000000000 /\
    call_address call = addr uh /\
    (tlsConfig tr <> None -> call_network call = "tcp-tls") /\
    (tlsConfig tr = None -> forceTcp tr = true -> call_network call = "tcp") /\
    (tlsConfig tr = None -> forceTcp tr = false -> preferUdp tr = true ->
     call_network call = "udp") /\
    (tlsConfig tr = None -> forceTcp tr = false -> preferUdp tr = false ->
     call_network call = proto).
Proof.
  intros Hp Ht. pose proof (Dial_call_run w p uh tr proto Hp Ht) as Hrun.
  eexists. split; [exact Hrun|].
  split; [unfold Dial; now rewrite (bind_Ok _ _ _ _ _ Hrun)|].
  assert (Hnet : forall b : bool,
    call_network (if b
        then dns_DialTimeoutWithTLS (Dial_proto tr proto) (addr uh)
                                    (tlsConfig tr) (1 * Second)
        else dns_DialTimeout (Dial_proto tr proto) (addr uh) (1 * Second))
    = Dial_proto tr proto) by (intros []; reflexivity).
  rewrite Hnet. unfold Dial_proto.
  repeat split.
  - now destruct (bool_decide _).
  - now destruct (bool_decide _).
  - intros H. now rewrite bool_decide_eq_true_2.
  - intros H1 H2. rewrite bool_decide_eq_false_2 by (intros H; now apply H).
    now rewrite H2.
  - intros H1 H2 H3. rewrite bool_decide_eq_false_2 by (intros H; now apply H).
    now rewrite H2, H3.
  - intros H1 H2 H3. rewrite bool_decide_eq_false_2 by (intros H; now apply H).
    now rewrite H2, H3.
Qed.

Lemma Dial_precedence_witness :
  exists call,
    Dial_call 2%nat "udp" Sample.world = Ok (call, Sample.world) /\
    Dial Sample.dead_probes 2%nat "udp" Sample.world
      = Ok (lib_dial Sample.dead_probes call, Sample.world) /\
    call_timeout call = 1000000000 /\
    call_address call = addr Sample.hostB /\
    (tlsConfig Sample.plain <> None -> call_network call = "tcp-tls") /\
    (tlsConfig Sample.plain = None -> forceTcp Sample.plain = true ->
     call_network call = "tcp") /\
    (tlsConfig Sample.plain = None -> forceTcp Sample.plain = false ->
     preferUdp Sample.plain = true -> call_network call = "udp") /\
    (tlsConfig Sample.plain = None -> forceTcp Sample.plain = false ->
     preferUdp Sample.plain = false -> call_network call = "udp").
Proof.
  apply (Dial_precedence Sample.dead_probes Sample.world 2%nat Sample.hostB
                         Sample.plain "udp"); reflexivity.
Defined.

(** ** SetTLSConfig and the shared transport *)

Lemma SetTLSConfig_run w a (uh : UpstreamHost) cl tr config :
  host_objs w !! a = Some uh ->
  client_objs w !! c uh = Some cl ->
  transport_objs w !! transport uh = Some tr ->
  SetTLSConfig a config w =
    Ok (tt, mk_World (host_objs w)
                     (<[c uh := set_TLSConfig config (set_Net "tcp-tls" cl)]>
                        (<[c uh := set_Net "tcp-tls" cl]> (client_objs w)))
                     (<[transport uh := set_tlsConfig config tr]> (transport_objs w))
                     (log_out w) (policy_calls w) (rand_state w)).
Proof.
  intros Ha Hc Ht. unfold SetTLSConfig.
  rewrite (bind_Ok _ _ _ _ _ (load_host_Ok _ _ _ Ha)).
  rewrite (bind_Ok _ _ _ _ _ (load_client_Ok _ _ _ Hc)).
  unfold bind at 1. cbn [store_client].
  unfold bind at 1, load_client at 1. cbn [client_objs].
  rewrite lookup_insert_eq.
  unfold bind at 1. cbn [store_client client_objs host_objs transport_objs
                         log_out policy_calls rand_state].
  unfold bind at 1, load_transport at 1. cbn [transport_objs].
  rewrite Ht. reflexivity.
Qed.

(** C6, as amended.  Let hosts A and B hold the same [*Transport].  After
    [A.SetTLSConfig(config)] with a [config] that is not [nil], A's client
    has [Net = "tcp-tls"] and [TLSConfig = config], the shared transport has
    [tlsConfig = config], and a following [Dial] on B enters the library
    with protocol "tcp-tls" (and with [config]) whatever protocol its
    caller passes. *)
Theorem SetTLSConfig_shared_transport (out : Outside) (w : World) (a b : loc)
    (uha uhb : UpstreamHost) (cla : dns_Client) (tr : Transport)
    (config : tls_Config) :
  host_objs w !! a = Some uha ->
  host_objs w !! b = Some uhb ->
  client_objs w !! c uha = Some cla ->
  transport_objs w !! transport uha = Some tr ->
  transport uhb = transport uha ->
  exists w1,
    SetTLSConfig a (Some config) w = Ok (tt, w1) /\
    (exists cl1, client_objs w1 !! c uha = Some cl1 /\
                 Net cl1 = "tcp-tls" /\ TLSConfig cl1 = Some config) /\
    (exists tr1, transport_objs w1 !! transport uha = Some tr1 /\
                 tlsConfig tr1 = Some config) /\
    (forall proto : string,
       Dial_call b proto w1
         = Ok (dns_DialTimeoutWithTLS "tcp-tls" (addr uhb) (Some config)
                                      (1 * Second), w1) /\
       Dial out b proto w1
         = Ok (lib_dial out (dns_DialTimeoutWithTLS "tcp-tls" (addr uhb)
                                                    (Some config) (1 * Second)),
               w1)).
Proof.
  intros Ha Hb Hc Ht Hshare.
  eexists. split; [exact (SetTLSConfig_run w a uha cla tr (Some config) Ha Hc Ht)|].
  split.
  { eexists. cbn [client_objs]. rewrite lookup_insert_eq. now split. }
  split.
  { eexists. cbn [transport_objs]. rewrite lookup_insert_eq. now split. }
  intros proto.
  match goal with |- Dial_call b proto ?x = _ /\ _ => set (w1 := x) end.
  assert (Hb1 : host_objs w1 !! b = Some uhb) by exact Hb.
  assert (Ht1 : transport_objs w1 !! transport uhb
                = Some (set_tlsConfig (Some config) tr)).
  { rewrite Hshare. subst w1. cbn [transport_objs]. apply lookup_insert_eq. }
  pose proof (Dial_call_run w1 b uhb _ proto Hb1 Ht1) as Hrun.
  cbn in Hrun. split; [exact Hrun|].
  unfold Dial. now rewrite (bind_Ok _ _ _ _ _ Hrun).
Qed.

Lemma SetTLSConfig_shared_transport_witness :
  exists w1,
    SetTLSConfig 1%nat (Some Sample.cfg) Sample.world = Ok (tt, w1) /\
    (exists cl1, client_objs w1 !! c Sample.hostA = Some cl1 /\
                 Net cl1 = "tcp-tls" /\ TLSConfig cl1 = Some Sample.cfg) /\
    (exists tr1, transport_objs w1 !! transport Sample.hostA = Some tr1 /\
                 tlsConfig tr1 = Some Sample.cfg) /\
    (forall proto : string,
       Dial_call 2%nat proto w1
         = Ok (dns_DialTimeoutWithTLS "tcp-tls" (addr Sample.hostB)
                                      (Some Sample.cfg) (1 * Second), w1) /\
       Dial Sample.dead_probes 2%nat proto w1
         = Ok (lib_dial Sample.dead_probes
                 (dns_DialTimeoutWithTLS "tcp-tls" (addr Sample.hostB)
                                         (Some Sample.cfg) (1 * Second)),
               w1)).
Proof.
  apply (SetTLSConfig_shared_transport Sample.dead_probes Sample.world
           1%nat 2%nat Sample.hostA Sample.hostB Sample.clientA Sample.plain
           Sample.cfg); reflexivity.
Defined.

(** C6, as stated, fails for a [nil] configuration: host 1 and host 2 share
    transport 1, [SetTLSConfig(nil)] on host 1 succeeds and leaves the
    transport without TLS, and the following [Dial("udp")] on host 2 enters
    the library with "udp". *)
Lemma SetTLSConfig_nil_counterexample :
  exists w1 call,
    transport Sample.hostA = transport Sample.hostB /\
    SetTLSConfig 1%nat None Sample.world = Ok (tt, w1) /\
    Dial_call 2%nat "udp" w1 = Ok (call, w1) /\
    call_network call = "udp" /\
    call_network call <> "tcp-tls".
Proof.
  eexists. eexists.
  split; [reflexivity|].
  split; [vm_compute; reflexivity|].
  split; [vm_compute; reflexivity|].
  split; [reflexivity|]. discriminate.
Qed.

(** ** Exchange *)

Lemma Exchange_run out dt w p (uh : UpstreamHost) tr state :
  host_objs w !! p = Some uh ->
  transport_objs w !! transport uh = Some tr ->
  exists r, Exchange out dt p state w = Ok (r, w).
Proof.
  intros Hp Ht.
  pose proof (Dial_call_run w p uh tr (req_Proto state) Hp Ht) as Hcall.
  unfold Exchange, Dial.
  rewrite (bind_Ok _ _ _ _ _ (bind_Ok _ _ _ _ _ Hcall)). unfold ret at 1.
  destruct (lib_dial out _) as [conn|err]; [|eexists; reflexivity].
  cbv zeta.
  destruct (conn_WriteMsg out _ (Req state)); [eexists; reflexivity|].
  destruct (conn_ReadMsg out _). eexists; reflexivity.
Qed.

(** C8.  [Exchange] never writes a failure counter.  Whatever the network
    does (the dial fails, the write fails, the read fails, or a reply
    arrives), a call on an existing host returns and leaves the store, and
    with it the [fails] of every host, as it found it; and no run of
    [Exchange], [Dial], [Down] or [SetTLSConfig] that returns has written a
    host object, which leaves [Check] as the writer of [fails]. *)
Theorem Exchange_leaves_fails (out : Outside) (defaultTimeout : Duration)
    (w : World) (p : loc) (state : request_Request) :
  (forall (uh : UpstreamHost) (tr : Transport),
     host_objs w !! p = Some uh ->
     transport_objs w !! transport uh = Some tr ->
     exists r, Exchange out defaultTimeout p state w = Ok (r, w))
  /\
  (forall r w', Exchange out defaultTimeout p state w = Ok (r, w') ->
     host_objs w' = host_objs w)
  /\
  (forall proto, keeps_hosts (Dial out p proto))
  /\ keeps_hosts (Down p)
  /\ (forall config, keeps_hosts (SetTLSConfig p config)).
Proof.
  split; [|split; [|split; [|split]]].
  - intros uh tr Hp Ht. exact (Exchange_run out defaultTimeout w p uh tr state Hp Ht).
  - intros r w' H. exact (keeps_hosts_Exchange out defaultTimeout p state _ _ _ H).
  - intros proto. apply keeps_hosts_Dial.
  - apply keeps_hosts_Down.
  - intros config. apply keeps_hosts_SetTLSConfig.
Qed.

Lemma Exchange_leaves_fails_witness :
  (exists r,
     Exchange Sample.live_probes (5 * Second) 2%nat
              (mk_Request Sample.reply "udp" 4096) Sample.world
     = Ok (r, Sample.world)) /\
  (forall r w',
     Exchange Sample.live_probes (5 * Second) 2%nat
              (mk_Request Sample.reply "udp" 4096) Sample.world
     = Ok (r, w') -> host_objs w' = host_objs Sample.world).
Proof.
  pose proof (Exchange_leaves_fails Sample.live_probes (5 * Second)
                Sample.world 2%nat (mk_Request Sample.reply "udp" 4096))
    as (Hret & Hframe & _).
  split.
  - exact (Hret Sample.hostB Sample.plain eq_refl eq_refl).
  - exact Hframe.
Defined.

(** ** The liveness probe *)

Lemma send_run out w p (uh : UpstreamHost) cl :
  host_objs w !! p = Some uh ->
  client_objs w !! c uh = Some cl ->
  exists es,
    send out p w =
      Ok (let r := client_Exchange out cl (send_ping (dns_Id out)) (addr uh) in
          (if probe_failed r then snd r else None, snd (fst r)),
          with_log w es).
Proof.
  intros Hp Hc. unfold send.
  rewrite (bind_Ok _ _ _ _ _ (load_host_Ok _ _ _ Hp)).
  rewrite (bind_Ok _ _ _ _ _ (load_client_Ok _ _ _ Hc)).
  destruct (client_Exchange out cl (send_ping (dns_Id out)) (addr uh))
    as [[msg rtt] err].
  unfold probe_failed, sane_reply. cbn [fst snd].
  destruct err as [e|], msg as [m|];
    try (exists []; unfold ret; now rewrite with_log_nil).
  destruct (Response m || (Opcode m =? dns_OpcodeQuery)); cbn [negb].
  - eexists [_]. reflexivity.
  - exists []. unfold ret. now rewrite with_log_nil.
Qed.

Lemma Check_run out w p (uh : UpstreamHost) cl :
  host_objs w !! p = Some uh ->
  client_objs w !! c uh = Some cl ->
  exists e w',
    Check out p w = Ok (e, w') /\
    host_objs w' =
      <[p := set_fails
               (if probe_failed
                     (client_Exchange out cl (send_ping (dns_Id out)) (addr uh))
                then atomic_AddUint32 (fails uh) 1
                else atomic_StoreUint32 (fails uh) 0) uh]> (host_objs w) /\
    (is_Some e <->
     probe_failed (client_Exchange out cl (send_ping (dns_Id out)) (addr uh))
     = true).
Proof.
  intros Hp Hc. unfold Check.
  rewrite (bind_Ok _ _ _ _ _ (load_host_Ok _ _ _ Hp)).
  rewrite (bind_Ok _ _ _ _ _ (load_client_Ok _ _ _ Hc)).
  destruct (send_run out w p uh cl Hp Hc) as [es Hsend].
  rewrite (bind_Ok _ _ _ _ _ Hsend). cbv zeta. cbn [fst].
  assert (Hp' : host_objs (with_log w es) !! p = Some uh) by exact Hp.
  destruct (client_Exchange out cl (send_ping (dns_Id out)) (addr uh))
    as [[msg rtt] err].
  cbn [fst snd].
  destruct (probe_failed (msg, rtt, err)) eqn:Hf.
  - destruct err as [e|]; [|discriminate Hf].
    rewrite (bind_Ok _ _ _ _ _ (load_host_Ok _ _ _ Hp')).
    eexists. eexists. split; [reflexivity|]. split; [reflexivity|].
    split; [reflexivity | intros _; now exists e].
  - rewrite (bind_Ok _ _ _ _ _ (load_host_Ok _ _ _ Hp')).
    eexists. eexists. split; [reflexivity|]. split; [reflexivity|].
    split; [intros [? ?]; discriminate | discriminate].
Qed.

(** C3, as amended.  One call of [Check] on a host either adds 1 to its
    [fails] modulo 2^32, when the probe exchange yields an error and no
    message flagged as a response or carrying the query opcode comes with
    it, or stores 0, in every other case.  The addition is an increment by
    exactly 1 for every prior value below 4294967295 and wraps to 0 at
    4294967295.  [Check] returns the error in the first case and [nil] in
    the second, and writes no other host. *)
Theorem Check_updates_fails (out : Outside) (w : World) (p : loc)
    (uh : UpstreamHost) (cl : dns_Client) :
  host_objs w !! p = Some uh ->
  client_objs w !! c uh = Some cl ->
  is_uint32 (fails uh) ->
  exists e w' (uh' : UpstreamHost),
    Check out p w = Ok (e, w') /\
    host_objs w' !! p = Some uh' /\
    (forall q, q <> p -> host_objs w' !! q = host_objs w !! q) /\
    (probe_failed (client_Exchange out cl (send_ping (dns_Id out)) (addr uh))
     = true ->
       is_Some e /\
       fails uh' = (fails uh + 1) mod 2 ^ 32 /\
       (fails uh < 4294967295 -> fails uh' = fails uh + 1) /\
       (fails uh = 4294967295 -> fails uh' = 0)) /\
    (probe_failed (client_Exchange out cl (send_ping (dns_Id out)) (addr uh))
     = false ->
       e = None /\ fails uh' = 0).
Proof.
  intros Hp Hc [Hlo Hhi].
  destruct (Check_run out w p uh cl Hp Hc) as (e & w' & Hrun & Hobjs & He).
  exists e, w'. eexists. split; [exact Hrun|].
  split; [rewrite Hobjs; apply lookup_insert_eq|].
  split; [intros q Hq; rewrite Hobjs; now apply lookup_insert_ne|].
  unfold uint32_modulus in Hhi.
  split; intros Hf; rewrite Hf; cbn [set_fails fields fails].
  - split; [now apply He|].
    unfold atomic_AddUint32, to_uint32, uint32_modulus.
    split; [reflexivity|]. split.
    + intros Hlt. apply Z.mod_small. lia.
    + intros ->. reflexivity.
  - split; [|reflexivity].
    destruct e as [x|]; [|reflexivity].
    assert (Hs : is_Some (Some x)) by now exists x.
    apply He in Hs. congruence.
Qed.

Lemma Check_updates_fails_witness :
  exists e w' (uh' : UpstreamHost),
    Check Sample.dead_probes 2%nat Sample.world = Ok (e, w') /\
    host_objs w' !! 2%nat = Some uh' /\
    is_Some e /\ fails uh' = 4.
Proof.
  destruct (Check_updates_fails Sample.dead_probes Sample.world 2%nat
              Sample.hostB Sample.clientB eq_refl eq_refl)
    as (e & w' & uh' & Hrun & Hp & _ & Hfail & _).
  { unfold is_uint32, uint32_modulus. cbn. lia. }
  exists e, w', uh'. split; [exact Hrun|]. split; [exact Hp|].
  destruct (Hfail eq_refl) as (He & _ & Hinc & _).
  split; [exact He|]. apply Hinc. cbn. lia.
Defined.

(** C3, as stated, fails at the top of the counter's range: host 3 has
    [fails = 4294967295], its probe times out with no message, and [Check]
    leaves [fails = 0], which is not the prior value plus 1. *)
Lemma Check_wraps_counterexample :
  exists w' (uh' : UpstreamHost),
    host_objs Sample.world !! 3%nat = Some Sample.hostC /\
    fails Sample.hostC = 4294967295 /\
    probe_failed (client_Exchange Sample.dead_probes Sample.clientA
                    (send_ping (dns_Id Sample.dead_probes))
                    (addr Sample.hostC)) = true /\
    Check Sample.dead_probes 3%nat Sample.world = Ok (Some "i/o timeout", w') /\
    host_objs w' !! 3%nat = Some uh' /\
    fails uh' = 0 /\
    fails uh' <> fails Sample.hostC + 1.
Proof.
  eexists. eexists.
  split; [reflexivity|]. split; [reflexivity|]. split; [reflexivity|].
  split; [vm_compute; reflexivity|].
  split; [vm_compute; reflexivity|].
  split; [reflexivity|]. discriminate.
Qed.

(** C5.  The probe message of [send] carries exactly one question, for the
    name "." with type NS (class INET), and its recursion-desired flag is
    set, not cleared: [SetQuestion] raises it and [send] does not lower it
    again.  An upstream that refuses recursive queries and answers the
    others therefore fails the probe. *)
Theorem send_ping_recursion_desired :
  (forall fresh_id,
     Question (send_ping fresh_id)
     = [mk_Question "." dns_TypeNS dns_ClassINET] /\
     length (Question (send_ping fresh_id)) = 1%nat /\
     RecursionDesired (send_ping fresh_id) = true) /\
  (exists w',
     Check Sample.norec_only 1%nat Sample.world
     = Ok (Some "recursion refused", w') /\
     (fun h : UpstreamHost => fails h) <$> host_objs w' !! 1%nat = Some 1).
Proof.
  split.
  - intros fresh_id. repeat split.
  - eexists. split; vm_compute; reflexivity.
Qed.

(** ** Select *)

Lemma all_down_cons w p pool :
  all_down w (p :: pool) = bool_decide (down_in w p = Some true) && all_down w pool.
Proof. reflexivity. Qed.

Lemma scan_allDown_run pool : forall w,
  Forall (fun p => is_Some (host_objs w !! p)) pool ->
  exists es, scan_allDown pool w = Ok (all_down w pool, with_log w es).
Proof.
  induction pool as [|host rest IH]; intros w Hok.
  - exists []. cbn. unfold ret. now rewrite with_log_nil.
  - inversion Hok as [|? ? [uh Huh] Hrest]; subst.
    destruct (Down_run w host uh Huh) as (d & Hd & Hrun).
    cbn [scan_allDown]. rewrite (bind_Ok _ _ _ _ _ Hrun).
    rewrite all_down_cons, Hd. destruct d; cbn [negb].
    + destruct (IH (with_log w (Down_log uh)) Hrest) as [es Hes].
      exists (Down_log uh ++ es)%list.
      rewrite Hes, with_log_app, all_down_with_log.
      now rewrite bool_decide_eq_true_2.
    + exists (Down_log uh). now rewrite bool_decide_eq_false_2.
Qed.

(** [all_down] speaks of the verdicts [Down] itself returns. *)
Lemma all_down_true_iff w pool :
  Forall (fun p => is_Some (host_objs w !! p)) pool ->
  all_down w pool = true <->
  Forall (fun p => exists w', Down p w = Ok (true, w')) pool.
Proof.
  induction pool as [|p rest IH]; intros Hok.
  - split; [constructor | reflexivity].
  - inversion Hok as [|? ? [uh Huh] Hrest]; subst.
    destruct (Down_run w p uh Huh) as (d & Hd & Hrun).
    rewrite all_down_cons, andb_true_iff, bool_decide_eq_true, (IH Hrest), Hd.
    split.
    + intros [Hp Hr]. injection Hp as ->. constructor; [eauto | exact Hr].
    + intros H. inversion H as [|? ? [w' Hw'] Hr]; subst.
      rewrite Hrun in Hw'. injection Hw' as -> _. now split.
Qed.

Lemma all_down_false_iff w pool :
  Forall (fun p => is_Some (host_objs w !! p)) pool ->
  all_down w pool = false <->
  Exists (fun p => exists w', Down p w = Ok (false, w')) pool.
Proof.
  induction pool as [|p rest IH]; intros Hok.
  - split; [discriminate | intros H; inversion H].
  - inversion Hok as [|? ? [uh Huh] Hrest]; subst.
    destruct (Down_run w p uh Huh) as (d & Hd & Hrun).
    rewrite all_down_cons, andb_false_iff, bool_decide_eq_false, (IH Hrest), Hd.
    split.
    + intros [Hp | Hr]; [|now apply Exists_cons_tl].
      apply Exists_cons_hd. destruct d; [congruence | eauto].
    + intros H. inversion H as [? ? [w' Hw'] | ? ? Hr]; subst; [|now right].
      rewrite Hrun in Hw'. injection Hw' as -> _. left. discriminate.
Qed.

(** C1.  With exactly one host in the pool, [Select] asks that host's
    [Down] once and returns [nil] if the host is down and no spray policy
    is configured; in every other case (host not down, or host down with
    spray configured) it returns that host.  No policy's [Select] is
    invoked: the store [Select] leaves is the one [Down] left, and the
    record of policy calls is unchanged. *)
Theorem Select_single_host (Random : Policy) (hc : HealthCheck) (w : World)
    (p : loc) (uh : UpstreamHost) :
  hosts hc = [p] ->
  host_objs w !! p = Some uh ->
  exists d w',
    Down p w = Ok (d, w') /\
    policy_calls w' = policy_calls w /\
    (d = true -> spray hc = None -> Select Random hc w = Ok (None, w')) /\
    (d = false -> Select Random hc w = Ok (Some p, w')) /\
    (forall s, spray hc = Some s -> Select Random hc w = Ok (Some p, w')).
Proof.
  intros Hpool Hp. destruct (Down_run w p uh Hp) as (d & _ & Hrun).
  exists d, (with_log w (Down_log uh)).
  split; [exact Hrun|]. split; [reflexivity|].
  unfold Select. rewrite Hpool. cbn [length bool_decide decide_rel].
  rewrite bool_decide_eq_true_2 by reflexivity.
  rewrite (bind_Ok _ _ _ _ _ Hrun).
  repeat split.
  - intros -> ->. reflexivity.
  - intros ->. reflexivity.
  - intros s ->. now rewrite andb_false_r.
Qed.

Lemma Select_single_host_witness :
  Select Sample.Random (Sample.hc_with [2%nat] (Some Sample.Spray) 0) Sample.world
  = Ok (Some 2%nat, with_log Sample.world [Warn_no_downFunc "192.0.2.2:53"]).
Proof.
  destruct (Select_single_host Sample.Random
              (Sample.hc_with [2%nat] (Some Sample.Spray) 0)
              Sample.world 2%nat Sample.hostB eq_refl eq_refl)
    as (d & w' & Hdown & _ & _ & _ & Hspray).
  rewrite (Hspray Sample.Spray eq_refl).
  vm_compute in Hdown. injection Hdown as _ <-. reflexivity.
Defined.

Lemma Policy_Select_run pol pool w :
  Policy_Select pol pool w = policy_Select pol pool (with_call w (policy_name pol)).
Proof. reflexivity. Qed.

Lemma spray_or_nil_run hc pool w :
  spray_or_nil hc pool w =
    match spray hc with
    | None => Ok (None, w)
    | Some s => policy_Select s pool (with_call w (policy_name s))
    end.
Proof. unfold spray_or_nil. now destruct (spray hc). Qed.

(** [Select] on a pool that does not have exactly one host, once the scan
    has given its verdict. *)
Lemma Select_after_scan Random hc w (allDown : bool) w1 :
  length (hosts hc) <> 1%nat ->
  scan_allDown (hosts hc) w = Ok (allDown, w1) ->
  Select Random hc w =
    if allDown then spray_or_nil hc (hosts hc) w1
    else
      let primary := match policy hc with Some pol => pol | None => Random end in
      match policy_Select primary (hosts hc)
                          (with_call w1 (policy_name primary)) with
      | Ok (h, w2) =>
          if match h with
             | Some l => match host_objs w2 !! l with
                         | Some _ => true
                         | None => false
                         end
             | None => false
             end
          then Ok (h, w2)
          else spray_or_nil hc (hosts hc) w2
      | Panic msg => Panic msg
      end.
Proof.
  intros Hlen Hscan. unfold Select. cbv zeta.
  rewrite bool_decide_eq_false_2 by exact Hlen.
  rewrite (bind_Ok _ _ _ _ _ Hscan).
  destruct allDown; [reflexivity|].
  destruct (policy hc) as [pol|].
  - unfold bind at 1. rewrite Policy_Select_run.
    destruct (policy_Select pol (hosts hc) _) as [[h w2]|msg]; [|reflexivity].
    unfold bind, not_nil.
    destruct h as [l|]; [destruct (host_objs w2 !! l)|]; reflexivity.
  - unfold bind at 1. rewrite Policy_Select_run.
    destruct (policy_Select Random (hosts hc) _) as [[h w2]|msg]; [|reflexivity].
    unfold bind, not_nil.
    destruct h as [l|]; [destruct (host_objs w2 !! l)|]; reflexivity.
Qed.

(** C2.  With at least two hosts in the pool, [Select] first asks the
    hosts' [Down], which only writes log lines.  If every host is down it
    returns what the spray policy's [Select] returns on the pool when spray
    is configured, and [nil] otherwise.  If some host is not down it runs
    the [Select] of the primary policy, or of [Random] when none is
    configured, on the pool; a pick that is not [nil] is returned; when the
    pick is [nil], [Select] returns what the spray policy's [Select]
    returns on the pool when spray is configured, and [nil] otherwise.  A
    policy starts in the store its caller left, with its call recorded. *)
Theorem Select_multi_host (Random : Policy) (hc : HealthCheck) (w : World) :
  (2 <= length (hosts hc))%nat ->
  Forall (fun p => is_Some (host_objs w !! p)) (hosts hc) ->
  let pool := hosts hc in
  let primary := match policy hc with Some pol => pol | None => Random end in
  exists es,
    let w1 := with_log w es in
    (Forall (fun p => exists w', Down p w = Ok (true, w')) pool ->
       (spray hc = None -> Select Random hc w = Ok (None, w1)) /\
       (forall s, spray hc = Some s ->
          Select Random hc w
          = policy_Select s pool (with_call w1 (policy_name s)))) /\
    (Exists (fun p => exists w', Down p w = Ok (false, w')) pool ->
       (forall h w2,
          policy_Select primary pool (with_call w1 (policy_name primary))
          = Ok (Some h, w2) ->
          is_Some (host_objs w2 !! h) ->
          Select Random hc w = Ok (Some h, w2)) /\
       (forall r w2,
          policy_Select primary pool (with_call w1 (policy_name primary))
          = Ok (r, w2) ->
          r = None \/ (exists h, r = Some h /\ host_objs w2 !! h = None) ->
          (spray hc = None -> Select Random hc w = Ok (None, w2)) /\
          (forall s, spray hc = Some s ->
             Select Random hc w
             = policy_Select s pool (with_call w2 (policy_name s)))) /\
       (forall msg,
          policy_Select primary pool (with_call w1 (policy_name primary))
          = Panic msg ->
          Select Random hc w = Panic msg)).
Proof.
  intros Hlen Hok pool primary.
  destruct (scan_allDown_run pool w Hok) as [es Hscan].
  exists es. cbv zeta.
  assert (Hne : length (hosts hc) <> 1%nat) by lia.
  pose proof (Select_after_scan Random hc w _ _ Hne Hscan) as Hsel.
  fold pool in Hsel. cbv zeta in Hsel. fold primary in Hsel.
  split.
  - intros Hall. apply (all_down_true_iff w pool Hok) in Hall.
    rewrite Hall in Hsel. rewrite Hsel, spray_or_nil_run.
    split; [intros ->; reflexivity | intros s ->; reflexivity].
  - intros Hsome. apply (all_down_false_iff w pool Hok) in Hsome.
    rewrite Hsome in Hsel. rewrite Hsel.
    split; [|split].
    + intros h w2 -> [uh Huh]. now rewrite Huh.
    + intros r w2 -> Hnil.
      assert (Hb : match r with
                   | Some l => match host_objs w2 !! l with
                               | Some _ => true
                               | None => false
                               end
                   | None => false
                   end = false).
      { destruct Hnil as [-> | (h & -> & Hh)]; [reflexivity | now rewrite Hh]. }
      rewrite Hb, spray_or_nil_run.
      split; [intros ->; reflexivity | intros s ->; reflexivity].
    + intros msg ->. reflexivity.
Qed.

Lemma Select_multi_host_witness :
  exists es,
    Select Sample.Random (Sample.hc_with [2%nat; 3%nat] (Some Sample.Spray) 0)
           Sample.world
    = policy_Select Sample.Spray [2%nat; 3%nat]
                    (with_call (with_log Sample.world es) "spray").
Proof.
  destruct (Select_multi_host Sample.Random
              (Sample.hc_with [2%nat; 3%nat] (Some Sample.Spray) 0)
              Sample.world)
    as (es & Hall & _).
  - cbn. lia.
  - repeat constructor; eexists; reflexivity.
  - exists es. apply Hall; [|reflexivity].
    repeat constructor; eexists; vm_compute; reflexivity.
Defined.

(** ** Start and Stop *)

Lemma Start_allocates_stopChan pr pr1 :
  Start pr = Ok pr1 -> stopChan (proc_hc pr1) = Some make_chan.
Proof.
  unfold Start. destruct (bool_decide _).
  - destruct (WaitGroup_Add _ _); [|discriminate].
    intros H. injection H as <-. reflexivity.
  - intros H. injection H as <-. reflexivity.
Qed.

(** Once the stop channel is closed, a worker waiting in its [select] with
    no tick pending returns and gives its unit back to the wait group. *)
Lemma worker_returns_on_stop take_tick pr :
  stop_signalled (proc_hc pr) = true ->
  0 < wg (proc_hc pr) ->
  worker_step false take_tick W_select pr
  = Ok (W_returned,
        mk_Proc (set_wg (wg (proc_hc pr) - 1) (proc_hc pr)) (proc_goroutines pr)).
Proof.
  intros Hstop Hwg. unfold worker_step. rewrite Hstop. cbn [andb].
  unfold WaitGroup_Add.
  destruct (wg (proc_hc pr) + -1 <? 0) eqn:E.
  - apply Z.ltb_lt in E. lia.
  - reflexivity.
Qed.


Lemma keeps_hosts_not_nil h : keeps_hosts (not_nil h).
Proof. intros w a w' H. unfold not_nil in H. now inversion H. Qed.

(** X15.  [Select] writes a host object only if a policy it consults
    does: when [Random], the configured primary policy and the spray policy
    leave the host objects alone, so does [Select]. *)
Lemma keeps_hosts_Select Random hc :
  keeps_hosts (policy_Select Random (hosts hc)) ->
  (forall pol, policy hc = Some pol -> keeps_hosts (policy_Select pol (hosts hc))) ->
  (forall s, spray hc = Some s -> keeps_hosts (policy_Select s (hosts hc))) ->
  keeps_hosts (Select Random hc).
Proof.
  intros HR Hpol Hspray.
  assert (Hs : keeps_hosts (spray_or_nil hc (hosts hc))).
  { unfold spray_or_nil. destruct (spray hc) as [s|] eqn:E; [|frame].
    unfold Policy_Select. pose proof (Hspray s eq_refl). frame. }
  unfold Select. cbv zeta. destruct (bool_decide _).
  - destruct (hosts hc) as [|pool0 rest]; [intros ? ? ? H; discriminate H|].
    pose proof (keeps_hosts_Down pool0). frame.
  - pose proof (keeps_hosts_scan_allDown (hosts hc)).
    apply keeps_hosts_bind; [assumption|]. intros allDown.
    destruct allDown; [assumption|].
    destruct (policy hc) as [pol|] eqn:E.
    + pose proof (Hpol pol eq_refl). unfold Policy_Select.
      apply keeps_hosts_bind; [frame|]. intros h.
      apply keeps_hosts_bind; [apply keeps_hosts_not_nil|].
      intros [|]; [frame | assumption].
    + unfold Policy_Select.
      apply keeps_hosts_bind; [frame|]. intros h.
      apply keeps_hosts_bind; [apply keeps_hosts_not_nil|].
      intros [|]; [frame | assumption].
Qed.

(** The worker and the probe fan-out never assign [stopChan]. *)
Lemma worker_step_keeps_stopChan tick take_tick pc pr pc' pr' :
  worker_step tick take_tick pc pr = Ok (pc', pr') ->
  stopChan (proc_hc pr') = stopChan (proc_hc pr).
Proof.
  unfold worker_step. destruct pc.
  - cbv zeta. destruct (time_NewTicker _); [|discriminate].
    intros H. injection H as _ <-. reflexivity.
  - destruct (tick && _).
    + intros H. injection H as _ <-. reflexivity.
    + destruct (stop_signalled _).
      * destruct (WaitGroup_Add _ _); [|discriminate].
        intros H. injection H as _ <-. reflexivity.
      * intros H. injection H as _ <-. reflexivity.
  - intros H. injection H as _ <-. reflexivity.
Qed.

(** C9.  With [checkInterval = 0] and a wait group nobody has added to,
    [Start] creates the (open) stop channel, launches no goroutine and
    leaves the wait group at zero; a following [Stop] closes the channel
    and returns: it neither faults nor waits. *)
Theorem Stop_after_Start_without_worker (pr : Proc) :
  checkInterval (proc_hc pr) = 0 ->
  wg (proc_hc pr) = 0 ->
  exists pr1 pr2,
    Start pr = Ok pr1 /\
    stopChan (proc_hc pr1) = Some (mk_Chan false) /\
    proc_goroutines pr1 = proc_goroutines pr /\
    wg (proc_hc pr1) = 0 /\
    Stop pr1 = Stop_returns pr2 /\
    stopChan (proc_hc pr2) = Some (mk_Chan true) /\
    proc_goroutines pr2 = proc_goroutines pr.
Proof.
  intros Hint Hwg. unfold Start. cbn [set_stopChan checkInterval].
  rewrite bool_decide_eq_false_2 by (intros H; now apply H).
  eexists. eexists. split; [reflexivity|].
  split; [reflexivity|]. split; [reflexivity|]. split; [exact Hwg|].
  unfold Stop. cbn. rewrite Hwg. cbn.
  split; [reflexivity|]. split; reflexivity.
Qed.

Lemma Stop_after_Start_without_worker_witness :
  exists pr1 pr2,
    Start (mk_Proc (Sample.hc_with [1%nat; 2%nat] None 0) []) = Ok pr1 /\
    stopChan (proc_hc pr1) = Some (mk_Chan false) /\
    proc_goroutines pr1 = [] /\
    wg (proc_hc pr1) = 0 /\
    Stop pr1 = Stop_returns pr2 /\
    stopChan (proc_hc pr2) = Some (mk_Chan true) /\
    proc_goroutines pr2 = [].
Proof.
  apply (Stop_after_Start_without_worker
           (mk_Proc (Sample.hc_with [1%nat; 2%nat] None 0) []));
    reflexivity.
Defined.

(** C10.  [Stop] on an orchestrator whose stop channel is still [nil], as
    it is until [Start] has run, faults with "close of nil channel"; after
    a [Start], the channel is allocated and [Stop] does not fault. *)
Theorem Stop_before_Start_panics (pr : Proc) :
  stopChan (proc_hc pr) = None ->
  Stop pr = Stop_panics "close of nil channel" /\
  (forall pr1, Start pr = Ok pr1 ->
     stopChan (proc_hc pr1) = Some (mk_Chan false) /\
     forall msg, Stop pr1 <> Stop_panics msg).
Proof.
  intros Hnil. split.
  - unfold Stop. now rewrite Hnil.
  - intros pr1 Hstart.
    pose proof (Start_allocates_stopChan pr pr1 Hstart) as Hch.
    split; [exact Hch|].
    intros msg. unfold Stop. rewrite Hch. cbn.
    destruct (wg (proc_hc pr1) =? 0); discriminate.
Qed.

Lemma Stop_before_Start_panics_witness :
  Stop (mk_Proc (Sample.hc_with [1%nat; 2%nat] None (30 * Second)) [])
  = Stop_panics "close of nil channel".
Proof.
  apply (Stop_before_Start_panics
           (mk_Proc (Sample.hc_with [1%nat; 2%nat] None (30 * Second)) [])).
  reflexivity.
Defined.

(** ** More on the probe: what it writes, logs and leaves alone *)

Lemma Check_run_exact out w p (uh : UpstreamHost) cl :
  host_objs w !! p = Some uh ->
  client_objs w !! c uh = Some cl ->
  exists e es,
    Check out p w =
      Ok (e, mk_World
               (<[p := set_fails
                         (if probe_failed
                               (client_Exchange out cl (send_ping (dns_Id out))
                                                (addr uh))
                          then atomic_AddUint32 (fails uh) 1
                          else atomic_StoreUint32 (fails uh) 0) uh]>
                  (host_objs w))
               (client_objs w) (transport_objs w) (log_out w ++ es)
               (policy_calls w) (rand_state w)) /\
    (let '(msg, _, err) :=
       client_Exchange out cl (send_ping (dns_Id out)) (addr uh) in
     match err with
     | None => e = None /\ es = []
     | Some x =>
         match msg with
         | Some m =>
             if Response m || (Opcode m =? dns_OpcodeQuery)
             then e = None /\
                  es = [Warn_malformed (addr uh) (client_proto cl) x m]
             else e = Some x /\ es = [Warn_dead (addr uh) (client_proto cl) x]
         | None => e = Some x /\ es = [Warn_dead (addr uh) (client_proto cl) x]
         end
     end).
Proof.
  intros Hp Hc.
  unfold Check, send, bind, load_host, load_client. cbv zeta.
  rewrite Hp, Hc. cbn. rewrite Hp, Hc. cbn.
  destruct (client_Exchange out cl (send_ping (dns_Id out)) (addr uh))
    as [[msg rtt] err].
  unfold probe_failed, sane_reply.
  destruct err as [x|]; [destruct msg as [m|];
    [destruct (Response m || (Opcode m =? dns_OpcodeQuery))|]|];
    cbn; rewrite ?Hp; cbn.
  - eexists. eexists. split; [reflexivity|]. split; reflexivity.
  - eexists. eexists. split; [reflexivity|]. split; reflexivity.
  - eexists. eexists. split; [reflexivity|]. split; reflexivity.
  - eexists. exists []. rewrite app_nil_r.
    split; [reflexivity|]. split; reflexivity.
Qed.

(** X1.  [Check] writes nothing but the probed host's [fails] and the log.
    The clients, the transports, the record of policy calls and the random
    source are as before; the probed host keeps its address, its client and
    transport pointers and its [downFunc]; and at most one log line is
    added. *)
Theorem Check_writes_only_fails (out : Outside) (w : World) (p : loc)
    (uh : UpstreamHost) (cl : dns_Client) :
  host_objs w !! p = Some uh ->
  client_objs w !! c uh = Some cl ->
  exists e w' (uh' : UpstreamHost) es,
    Check out p w = Ok (e, w') /\
    client_objs w' = client_objs w /\
    transport_objs w' = transport_objs w /\
    policy_calls w' = policy_calls w /\
    rand_state w' = rand_state w /\
    host_objs w' !! p = Some uh' /\
    addr uh' = addr uh /\ c uh' = c uh /\ transport uh' = transport uh /\
    downFunc uh' = downFunc uh /\
    log_out w' = (log_out w ++ es)%list /\ (length es <= 1)%nat.
Proof.
  intros Hp Hc.
  destruct (Check_run_exact out w p uh cl Hp Hc) as (e & es & Hrun & Hcase).
  exists e. eexists. eexists. exists es.
  split; [exact Hrun|]. cbn [client_objs transport_objs policy_calls
                             rand_state host_objs log_out].
  rewrite lookup_insert_eq.
  repeat (split; [reflexivity|]).
  destruct (client_Exchange out cl (send_ping (dns_Id out)) (addr uh))
    as [[msg rtt] [x|]].
  - destruct msg as [m|];
      [destruct (Response m || (Opcode m =? dns_OpcodeQuery))|];
      destruct Hcase as [_ ->]; cbn; lia.
  - destruct Hcase as [_ ->]. cbn. lia.
Qed.

Lemma Check_writes_only_fails_witness :
  exists e w' (uh' : UpstreamHost) es,
    Check Sample.dead_probes 2%nat Sample.world = Ok (e, w') /\
    client_objs w' = client_objs Sample.world /\
    transport_objs w' = transport_objs Sample.world /\
    policy_calls w' = policy_calls Sample.world /\
    rand_state w' = rand_state Sample.world /\
    host_objs w' !! 2%nat = Some uh' /\
    addr uh' = addr Sample.hostB /\ c uh' = c Sample.hostB /\
    transport uh' = transport Sample.hostB /\
    downFunc uh' = downFunc Sample.hostB /\
    log_out w' = (log_out Sample.world ++ es)%list /\ (length es <= 1)%nat.
Proof.
  apply (Check_writes_only_fails Sample.dead_probes Sample.world 2%nat
           Sample.hostB Sample.clientB); reflexivity.
Defined.

(** X2.  What [Check] logs and returns, by the outcome of the exchange.
    Without an error it returns [nil] and logs nothing.  With an error and
    a message that is a response or has the query opcode it returns [nil]
    and logs one "malformed response" warning.  With an error and no such
    message it returns the error and logs one "dead" warning.  The
    protocol named in either warning is the client's [Net], or "udp" when
    [Net] is empty. *)
Theorem Check_log_triggers (out : Outside) (w : World) (p : loc)
    (uh : UpstreamHost) (cl : dns_Client)
    (msg : option dns_Msg) (rtt : Duration) (err : option Error) :
  host_objs w !! p = Some uh ->
  client_objs w !! c uh = Some cl ->
  client_Exchange out cl (send_ping (dns_Id out)) (addr uh) = (msg, rtt, err) ->
  exists e w',
    Check out p w = Ok (e, w') /\
    (err = None -> e = None /\ log_out w' = log_out w) /\
    (forall x m, err = Some x -> msg = Some m ->
       Response m = true \/ Opcode m = dns_OpcodeQuery ->
       e = None /\
       log_out w' = (log_out w ++
                     [Warn_malformed (addr uh) (client_proto cl) x m])%list) /\
    (forall x, err = Some x ->
       msg = None \/
       (exists m, msg = Some m /\ Response m = false /\
                  Opcode m <> dns_OpcodeQuery) ->
       e = Some x /\
       log_out w' = (log_out w ++
                     [Warn_dead (addr uh) (client_proto cl) x])%list) /\
    (Net cl = "" -> client_proto cl = "udp") /\
    (Net cl <> "" -> client_proto cl = Net cl).
Proof.
  intros Hp Hc Hex.
  destruct (Check_run_exact out w p uh cl Hp Hc) as (e & es & Hrun & Hcase).
  rewrite Hex in Hcase.
  exists e. eexists. split; [exact Hrun|]. cbn [log_out].
  split; [|split; [|split; [|split]]].
  - intros ->. destruct Hcase as [-> ->]. now rewrite app_nil_r.
  - intros x m -> -> Hsane.
    assert (Hb : Response m || (Opcode m =? dns_OpcodeQuery) = true).
    { apply orb_true_iff. destruct Hsane as [H|H]; [now left|right].
      now apply Z.eqb_eq. }
    rewrite Hb in Hcase. destruct Hcase as [-> ->]. now split.
  - intros x -> [-> | (m & -> & Hr & Ho)].
    + destruct Hcase as [-> ->]. now split.
    + assert (Hb : Response m || (Opcode m =? dns_OpcodeQuery) = false).
      { apply orb_false_iff. split; [exact Hr|]. now apply Z.eqb_neq. }
      rewrite Hb in Hcase. destruct Hcase as [-> ->]. now split.
  - intros H. unfold client_proto. rewrite H. reflexivity.
  - intros H. unfold client_proto. now rewrite bool_decide_eq_true_2.
Qed.

Lemma Check_log_triggers_witness :
  exists w',
    Check Sample.dead_probes 2%nat Sample.world = Ok (Some "i/o timeout", w') /\
    log_out w' = [Warn_dead "192.0.2.2:53" "tcp" "i/o timeout"].
Proof.
  destruct (Check_log_triggers Sample.dead_probes Sample.world 2%nat
              Sample.hostB Sample.clientB None 0 (Some "i/o timeout")
              eq_refl eq_refl eq_refl)
    as (e & w' & Hrun & _ & _ & Hdead & _).
  destruct (Hdead "i/o timeout" eq_refl (or_introl eq_refl)) as [He Hlog].
  exists w'. rewrite He in Hrun. split; [exact Hrun | exact Hlog].
Defined.

(** X3.  A probe followed by [Down], for a host without [downFunc] whose
    counter is below 4294967295: the host is reported down exactly when
    the probe failed.  One failed probe takes a healthy host down, one
    successful probe brings a host back whatever its count was. *)
Theorem Check_then_Down (out : Outside) (w : World) (p : loc)
    (uh : UpstreamHost) (cl : dns_Client) :
  host_objs w !! p = Some uh ->
  client_objs w !! c uh = Some cl ->
  downFunc uh = None ->
  0 <= fails uh < 4294967295 ->
  exists e w' d w'',
    Check out p w = Ok (e, w') /\
    Down p w' = Ok (d, w'') /\
    (d = true <-> is_Some e) /\
    (d = true <->
     probe_failed (client_Exchange out cl (send_ping (dns_Id out)) (addr uh))
     = true).
Proof.
  intros Hp Hc Hnil Hrange.
  destruct (Check_run out w p uh cl Hp Hc) as (e & w' & Hrun & Hobjs & He).
  assert (Hp' : host_objs w' !! p
                = Some (set_fails
                          (if probe_failed
                                (client_Exchange out cl (send_ping (dns_Id out))
                                                 (addr uh))
                           then atomic_AddUint32 (fails uh) 1
                           else atomic_StoreUint32 (fails uh) 0) uh))
    by (rewrite Hobjs; apply lookup_insert_eq).
  destruct (Down_run w' p _ Hp') as (d & Hd & Hdown).
  exists e, w', d. eexists. split; [exact Hrun|]. split; [exact Hdown|].
  unfold down_in in Hd. rewrite Hp' in Hd. cbn in Hd. rewrite Hnil in Hd.
  injection Hd as <-.
  assert (Hiff : (0 <? (if probe_failed
                              (client_Exchange out cl (send_ping (dns_Id out))
                                               (addr uh))
                        then atomic_AddUint32 (fails uh) 1
                        else atomic_StoreUint32 (fails uh) 0)) = true <->
                 probe_failed
                   (client_Exchange out cl (send_ping (dns_Id out)) (addr uh))
                 = true).
  { destruct (probe_failed _).
    - unfold atomic_AddUint32, to_uint32, uint32_modulus.
      rewrite Z.mod_small by lia. split; [reflexivity|].
      intros _. apply Z.ltb_lt. lia.
    - cbn. split; discriminate. }
  split; [|exact Hiff]. rewrite Hiff. symmetry. exact He.
Qed.

Lemma Check_then_Down_witness :
  exists e w' d w'',
    Check Sample.dead_probes 1%nat Sample.world = Ok (e, w') /\
    Down 1%nat w' = Ok (d, w'') /\
    (d = true <-> is_Some e) /\
    (d = true <->
     probe_failed (client_Exchange Sample.dead_probes Sample.clientA
                     (send_ping (dns_Id Sample.dead_probes))
                     (addr Sample.hostA)) = true).
Proof.
  apply (Check_then_Down Sample.dead_probes Sample.world 1%nat Sample.hostA
           Sample.clientA); try reflexivity.
  cbn. lia.
Defined.

(** X4.  Failed probes add up: after [n] probes of a host in a row that
    all fail, its [fails] is the prior value plus [n], modulo 2^32; as
    long as that sum stays below 2^32 it is the sum itself. *)
Theorem Check_times_accumulates (out : Outside) (p : loc) (cl : dns_Client)
    (n : nat) :
  forall (w : World) (uh : UpstreamHost),
  host_objs w !! p = Some uh ->
  client_objs w !! c uh = Some cl ->
  is_uint32 (fails uh) ->
  probe_failed (client_Exchange out cl (send_ping (dns_Id out)) (addr uh))
  = true ->
  exists w' (uh' : UpstreamHost),
    Check_times out p n w = Ok (tt, w') /\
    host_objs w' !! p = Some uh' /\
    fails uh' = (fails uh + Z.of_nat n) mod 2 ^ 32 /\
    (fails uh + Z.of_nat n < 2 ^ 32 -> fails uh' = fails uh + Z.of_nat n).
Proof.
  induction n as [|n IH]; intros w uh Hp Hc Hu Hfail.
  - exists w, uh. split; [reflexivity|]. split; [exact Hp|].
    unfold is_uint32, uint32_modulus in Hu.
    rewrite Z.add_0_r, Z.mod_small by lia. split; [reflexivity | lia].
  - destruct (Check_run_exact out w p uh cl Hp Hc) as (e & es & Hrun & _).
    rewrite Hfail in Hrun.
    cbn [Check_times]. rewrite (bind_Ok _ _ _ _ _ Hrun).
    match type of Hrun with _ = Ok (_, ?x) => set (w1 := x) in * end.
    set (uh1 := set_fails (atomic_AddUint32 (fails uh) 1) uh).
    assert (Hp1 : host_objs w1 !! p = Some uh1) by apply lookup_insert_eq.
    assert (Hc1 : client_objs w1 !! c uh1 = Some cl) by exact Hc.
    assert (Hu1 : is_uint32 (fails uh1)).
    { unfold is_uint32, uh1. cbn. unfold atomic_AddUint32, to_uint32.
      apply Z.mod_pos_bound. reflexivity. }
    destruct (IH w1 uh1 Hp1 Hc1 Hu1 Hfail) as (w' & uh' & Hrun' & Hp' & Hf & _).
    exists w', uh'. split; [exact Hrun'|]. split; [exact Hp'|].
    assert (Hsum : fails uh' = (fails uh + Z.of_nat (S n)) mod 2 ^ 32).
    { rewrite Hf. unfold uh1. cbn [set_fails fields fails].
      unfold atomic_AddUint32, to_uint32, uint32_modulus.
      rewrite Zplus_mod_idemp_l. f_equal. lia. }
    split; [exact Hsum|]. intros Hlt. rewrite Hsum.
    unfold is_uint32 in Hu. apply Z.mod_small. lia.
Qed.

Lemma Check_times_accumulates_witness :
  exists w' (uh' : UpstreamHost),
    Check_times Sample.dead_probes 2%nat 5 Sample.world = Ok (tt, w') /\
    host_objs w' !! 2%nat = Some uh' /\
    fails uh' = 8.
Proof.
  destruct (Check_times_accumulates Sample.dead_probes 2%nat Sample.clientB 5
              Sample.world Sample.hostB eq_refl eq_refl)
    as (w' & uh' & Hrun & Hp & _ & Hsum).
  - unfold is_uint32, uint32_modulus. cbn. lia.
  - reflexivity.
  - exists w', uh'. split; [exact Hrun|]. split; [exact Hp|].
    rewrite Hsum; [reflexivity | cbn; lia].
Defined.

(** X5.  Probes of two different hosts do not interfere: run in either
    order they return the same two results and leave the same host
    objects, clients and transports.  Only the order of their log lines
    depends on the order of the probes. *)
Theorem Check_distinct_hosts_commute (out : Outside) (w : World) (p q : loc)
    (uhp uhq : UpstreamHost) (clp clq : dns_Client) :
  p <> q ->
  host_objs w !! p = Some uhp ->
  host_objs w !! q = Some uhq ->
  client_objs w !! c uhp = Some clp ->
  client_objs w !! c uhq = Some clq ->
  exists ep eq wp wpq wq wqp,
    Check out p w = Ok (ep, wp) /\ Check out q wp = Ok (eq, wpq) /\
    Check out q w = Ok (eq, wq) /\ Check out p wq = Ok (ep, wqp) /\
    host_objs wpq = host_objs wqp /\
    client_objs wpq = client_objs wqp /\
    transport_objs wpq = transport_objs wqp.
Proof.
  intros Hne Hp Hq Hcp Hcq.
  destruct (Check_run_exact out w p uhp clp Hp Hcp) as (ep & esp & Hrp & _).
  destruct (Check_run_exact out w q uhq clq Hq Hcq) as (eq & esq & Hrq & _).
  match type of Hrp with _ = Ok (_, ?x) => set (wp := x) in * end.
  match type of Hrq with _ = Ok (_, ?x) => set (wq := x) in * end.
  assert (Hq1 : host_objs wp !! q = Some uhq).
  { subst wp. cbn [host_objs]. now rewrite lookup_insert_ne. }
  assert (Hp1 : host_objs wq !! p = Some uhp).
  { subst wq. cbn [host_objs]. rewrite lookup_insert_ne; [exact Hp|].
    intros H. apply Hne. now symmetry. }
  destruct (Check_run_exact out wp q uhq clq Hq1 Hcq) as (eq' & esq' & Hrq' & Hcq').
  destruct (Check_run_exact out wq p uhp clp Hp1 Hcp) as (ep' & esp' & Hrp' & Hcp').
  assert (Heq : eq' = eq).
  { destruct (Check_run out w q uhq clq Hq Hcq) as (e1 & w1 & H1 & _ & Hs1).
    destruct (Check_run out wp q uhq clq Hq1 Hcq) as (e2 & w2 & H2 & _ & Hs2).
    rewrite Hrq in H1. rewrite Hrq' in H2.
    injection H1 as <- _. injection H2 as <- _.
    destruct (Check_run_exact out w q uhq clq Hq Hcq) as (e3 & es3 & H3 & Hc3).
    rewrite Hrq in H3. injection H3 as <- _.
    destruct (client_Exchange out clq (send_ping (dns_Id out)) (addr uhq))
      as [[m r] [x|]].
    - destruct m as [m|];
        [destruct (Response m || (Opcode m =? dns_OpcodeQuery))|];
        destruct Hc3 as [-> _]; destruct Hcq' as [-> _]; reflexivity.
    - destruct Hc3 as [-> _]. destruct Hcq' as [-> _]. reflexivity. }
  assert (Hep : ep' = ep).
  { destruct (Check_run_exact out w p uhp clp Hp Hcp) as (e3 & es3 & H3 & Hc3).
    rewrite Hrp in H3. injection H3 as <- _.
    destruct (client_Exchange out clp (send_ping (dns_Id out)) (addr uhp))
      as [[m r] [x|]].
    - destruct m as [m|];
        [destruct (Response m || (Opcode m =? dns_OpcodeQuery))|];
        destruct Hc3 as [-> _]; destruct Hcp' as [-> _]; reflexivity.
    - destruct Hc3 as [-> _]. destruct Hcp' as [-> _]. reflexivity. }
  subst eq' ep'.
  exists ep, eq, wp. eexists. exists wq. eexists.
  split; [exact Hrp|]. split; [exact Hrq'|].
  split; [exact Hrq|]. split; [exact Hrp'|].
  cbn [host_objs client_objs transport_objs]. subst wp wq.
  cbn [host_objs client_objs transport_objs].
  split; [|split; reflexivity].
  apply insert_insert_ne. intros H. apply Hne. now symmetry.
Qed.

Lemma Check_distinct_hosts_commute_witness :
  exists ep eq wp wpq wq wqp,
    Check Sample.dead_probes 1%nat Sample.world = Ok (ep, wp) /\
    Check Sample.dead_probes 2%nat wp = Ok (eq, wpq) /\
    Check Sample.dead_probes 2%nat Sample.world = Ok (eq, wq) /\
    Check Sample.dead_probes 1%nat wq = Ok (ep, wqp) /\
    host_objs wpq = host_objs wqp /\
    client_objs wpq = client_objs wqp /\
    transport_objs wpq = transport_objs wqp.
Proof.
  apply (Check_distinct_hosts_commute Sample.dead_probes Sample.world
           1%nat 2%nat Sample.hostA Sample.hostB Sample.clientA Sample.clientB);
    [discriminate | reflexivity ..].
Defined.

(** ** More on SetTLSConfig and Dial *)

(** X6.  [SetTLSConfig] on host A, for any [config] including [nil],
    writes A's client and A's transport and nothing else: every host
    object, every client at another location, every transport at another
    location and the log are as before.  A's client has [Net = "tcp-tls"]
    and keeps its [UDPSize] and [Timeout]; the transport keeps [forceTcp],
    [preferUdp] and [expire].  A host with its own client keeps probing
    over its old protocol; a host that shares A's client probes over
    "tcp-tls" from then on. *)
Theorem SetTLSConfig_writes_client_and_transport (w : World) (a : loc)
    (uha : UpstreamHost) (cla : dns_Client) (tr : Transport)
    (config : option tls_Config) :
  host_objs w !! a = Some uha ->
  client_objs w !! c uha = Some cla ->
  transport_objs w !! transport uha = Some tr ->
  exists w1 cl1 tr1,
    SetTLSConfig a config w = Ok (tt, w1) /\
    host_objs w1 = host_objs w /\
    log_out w1 = log_out w /\
    (forall l, l <> c uha -> client_objs w1 !! l = client_objs w !! l) /\
    (forall l, l <> transport uha ->
       transport_objs w1 !! l = transport_objs w !! l) /\
    client_objs w1 !! c uha = Some cl1 /\
    Net cl1 = "tcp-tls" /\ TLSConfig cl1 = config /\
    UDPSize cl1 = UDPSize cla /\ Timeout cl1 = Timeout cla /\
    transport_objs w1 !! transport uha = Some tr1 /\
    tlsConfig tr1 = config /\ forceTcp tr1 = forceTcp tr /\
    preferUdp tr1 = preferUdp tr /\ expire tr1 = expire tr /\
    (forall (uhb : UpstreamHost) clb,
       client_objs w !! c uhb = Some clb ->
       (c uhb <> c uha ->
        exists clb1, client_objs w1 !! c uhb = Some clb1 /\
                     client_proto clb1 = client_proto clb) /\
       (c uhb = c uha ->
        exists clb1, client_objs w1 !! c uhb = Some clb1 /\
                     client_proto clb1 = "tcp-tls")).
Proof.
  intros Ha Hc Ht.
  eexists. eexists. eexists.
  split; [exact (SetTLSConfig_run w a uha cla tr config Ha Hc Ht)|].
  cbn [host_objs log_out client_objs transport_objs].
  split; [reflexivity|]. split; [reflexivity|].
  split; [intros l Hl; now rewrite !lookup_insert_ne by congruence|].
  split; [intros l Hl; now rewrite lookup_insert_ne by congruence|].
  split; [apply lookup_insert_eq|].
  do 4 (split; [reflexivity|]).
  split; [apply lookup_insert_eq|].
  do 4 (split; [reflexivity|]).
  intros uhb clb Hb. split.
  - intros Hne. exists clb. split; [|reflexivity].
    now rewrite !lookup_insert_ne by congruence.
  - intros ->. eexists. split; [apply lookup_insert_eq|]. reflexivity.
Qed.

Lemma SetTLSConfig_writes_client_and_transport_witness :
  exists w1,
    SetTLSConfig 1%nat None Sample.world = Ok (tt, w1) /\
    host_objs w1 = host_objs Sample.world /\
    client_objs w1 !! 2%nat = Some Sample.clientB /\
    (exists cl1, client_objs w1 !! 1%nat = Some cl1 /\ Net cl1 = "tcp-tls").
Proof.
  destruct (SetTLSConfig_writes_client_and_transport Sample.world 1%nat
              Sample.hostA Sample.clientA Sample.plain None
              eq_refl eq_refl eq_refl)
    as (w1 & cl1 & tr1 & Hrun & Hh & _ & Hcl & _ & Hc1 & Hnet & _).
  exists w1. split; [exact Hrun|]. split; [exact Hh|].
  split.
  - etransitivity; [apply (Hcl 2%nat); discriminate | reflexivity].
  - exists cl1. split; [exact Hc1 | exact Hnet].
Defined.

(** X7.  The last [SetTLSConfig] wins: two calls on the same host, with
    [config1] and then [config2], leave exactly the store that the single
    call with [config2] leaves.  In particular the call is idempotent. *)
Theorem SetTLSConfig_last_wins (w : World) (a : loc) (uha : UpstreamHost)
    (cla : dns_Client) (tr : Transport) (config1 config2 : option tls_Config) :
  host_objs w !! a = Some uha ->
  client_objs w !! c uha = Some cla ->
  transport_objs w !! transport uha = Some tr ->
  (SetTLSConfig a config1 ;;; SetTLSConfig a config2) w
  = SetTLSConfig a config2 w.
Proof.
  intros Ha Hc Ht.
  pose proof (SetTLSConfig_run w a uha cla tr config1 Ha Hc Ht) as H1.
  rewrite (bind_Ok _ _ _ _ _ H1).
  match type of H1 with _ = Ok (_, ?x) => set (w1 := x) in * end.
  assert (Ha1 : host_objs w1 !! a = Some uha) by exact Ha.
  assert (Hc1 : client_objs w1 !! c uha
                = Some (set_TLSConfig config1 (set_Net "tcp-tls" cla)))
    by apply lookup_insert_eq.
  assert (Ht1 : transport_objs w1 !! transport uha
                = Some (set_tlsConfig config1 tr))
    by apply lookup_insert_eq.
  rewrite (SetTLSConfig_run w1 a uha _ _ config2 Ha1 Hc1 Ht1).
  rewrite (SetTLSConfig_run w a uha cla tr config2 Ha Hc Ht).
  subst w1. cbn [host_objs client_objs transport_objs log_out policy_calls
                 rand_state].
  rewrite !insert_insert_eq. reflexivity.
Qed.

Lemma SetTLSConfig_last_wins_witness :
  (SetTLSConfig 1%nat (Some Sample.cfg) ;;; SetTLSConfig 1%nat None) Sample.world
  = SetTLSConfig 1%nat None Sample.world.
Proof.
  apply (SetTLSConfig_last_wins Sample.world 1%nat Sample.hostA Sample.clientA
           Sample.plain (Some Sample.cfg) None); reflexivity.
Defined.

(** X8.  Which library entry point [Dial] takes.  It dials through the TLS
    entry point exactly when the effective protocol is "tcp-tls": when the
    transport has a TLS configuration, or when it has none, neither
    [forceTcp] nor [preferUdp] is set and the caller itself asks for
    "tcp-tls".  The configuration handed to the TLS entry point is the
    transport's, so in the second case it is [nil].  With [forceTcp] set and
    no TLS configuration a caller's "tcp-tls" is overridden by "tcp". *)
Theorem Dial_TLS_entry (w : World) (p : loc) (uh : UpstreamHost)
    (tr : Transport) (proto : string) :
  host_objs w !! p = Some uh ->
  transport_objs w !! transport uh = Some tr ->
  exists call,
    Dial_call p proto w = Ok (call, w) /\
    ((exists n a cfg t, call = dns_DialTimeoutWithTLS n a cfg t) <->
     tlsConfig tr <> None \/
     (tlsConfig tr = None /\ forceTcp tr = false /\ preferUdp tr = false /\
      proto = "tcp-tls")) /\
    (forall n a cfg t, call = dns_DialTimeoutWithTLS n a cfg t ->
       n = "tcp-tls" /\ cfg = tlsConfig tr) /\
    (tlsConfig tr = None -> forceTcp tr = true ->
     call = dns_DialTimeout "tcp" (addr uh) (1 * Second)).
Proof.
  intros Hp Ht. eexists. split; [exact (Dial_call_run w p uh tr proto Hp Ht)|].
  unfold Dial_proto.
  destruct (tlsConfig tr) as [cfg|] eqn:Ecfg.
  - rewrite (bool_decide_eq_true_2 (Some cfg <> None)) by discriminate. cbn.
    split; [|split].
    + split; [intros _; left; discriminate | intros _; eauto].
    + intros n a cfg' t H. injection H as <- _ <- _. now split.
    + discriminate.
  - rewrite (bool_decide_eq_false_2 (None <> None)) by (intros H; now apply H).
    destruct (forceTcp tr), (preferUdp tr); cbn.
    1-3: (split; [|split];
          [ split; [intros (n & a & cfg & t & H); discriminate H
                   | intros [H | (_ & H1 & H2 & _)]; [now elim H | discriminate]]
          | intros n a cfg t H; discriminate H
          | try reflexivity; discriminate ]).
    destruct (bool_decide (proto = "tcp-tls")) eqn:E.
    + apply bool_decide_eq_true in E. subst proto.
      split; [|split].
      * split; [intros _; right; repeat split | intros _; eauto].
      * intros n a cfg t H. injection H as <- _ <- _. now split.
      * discriminate.
    + apply bool_decide_eq_false in E.
      split; [|split].
      * split; [intros (n & a & cfg & t & H); discriminate H|].
        intros [H | (_ & _ & _ & H)]; [now elim H | contradiction].
      * intros n a cfg t H. discriminate H.
      * discriminate.
Qed.

Lemma Dial_TLS_entry_witness :
  Dial_call 1%nat "tcp-tls" Sample.world
  = Ok (dns_DialTimeoutWithTLS "tcp-tls" "192.0.2.1:53" None 1000000000,
        Sample.world).
Proof.
  destruct (Dial_TLS_entry Sample.world 1%nat Sample.hostA Sample.plain
              "tcp-tls" eq_refl eq_refl) as (call & Hrun & _).
  rewrite Hrun. vm_compute in Hrun. injection Hrun as <-. reflexivity.
Defined.

(** ** More on Exchange *)

Lemma Exchange_inv out dt p state w r w' :
  Exchange out dt p state w = Ok (r, w') ->
  exists call,
    Dial_call p (req_Proto state) w = Ok (call, w') /\
    match lib_dial out call with
    | inr e => r = mk_ExchangeResult None (Some e) None
    | inl conn0 =>
        exists c1,
          conn_UDPSize c1 = Z.max dns_MinMsgSize (to_uint16 (req_Size state)) /\
          conn_writeDeadline c1 = Some (time_Now out 0 + dt) /\
          conn_readDeadline c1 = conn_readDeadline conn0 /\
          conn_id c1 = conn_id conn0 /\
          match conn_WriteMsg out c1 (Req state) with
          | Some e => r = mk_ExchangeResult None (Some e) (Some (Close c1))
          | None =>
              r = mk_ExchangeResult
                    (fst (conn_ReadMsg out
                            (SetReadDeadline (time_Now out 1 + dt) c1)))
                    (snd (conn_ReadMsg out
                            (SetReadDeadline (time_Now out 1 + dt) c1)))
                    (Some (Close (SetReadDeadline (time_Now out 1 + dt) c1)))
          end
    end.
Proof.
  unfold Exchange, Dial. intros H.
  apply bind_inv in H as (d & w1 & Hd & H).
  apply bind_inv in Hd as (call & w2 & Hcall & Hret).
  unfold ret in Hret. injection Hret as <- <-.
  exists call. destruct (lib_dial out call) as [conn0|e].
  - cbv zeta in H.
    match type of H with
    | context [conn_WriteMsg out ?x _] => set (c1 := x) in *
    end.
    assert (Hsize : conn_UDPSize c1
                    = Z.max dns_MinMsgSize (to_uint16 (req_Size state))).
    { subst c1. cbn [set_conn_UDPSize conn_UDPSize SetWriteDeadline].
      destruct (to_uint16 (req_Size state) <? dns_MinMsgSize) eqn:E; cbn.
      - apply Z.ltb_lt in E. lia.
      - apply Z.ltb_ge in E. lia. }
    assert (Hrest : conn_writeDeadline c1 = Some (time_Now out 0 + dt) /\
                    conn_readDeadline c1 = conn_readDeadline conn0 /\
                    conn_id c1 = conn_id conn0).
    { subst c1. cbn [set_conn_UDPSize conn_UDPSize].
      destruct (to_uint16 (req_Size state) <? dns_MinMsgSize);
        repeat split. }
    destruct Hrest as (Hw & Hr & Hi).
    destruct (conn_WriteMsg out c1 (Req state)) as [e|] eqn:Ew.
    + unfold ret in H. injection H as <- <-.
      split; [exact Hcall|]. exists c1.
      split; [exact Hsize|]. split; [exact Hw|]. split; [exact Hr|].
      split; [exact Hi|]. now rewrite Ew.
    + destruct (conn_ReadMsg out _) as [m e] eqn:Er.
      unfold ret in H. injection H as <- <-.
      split; [exact Hcall|]. exists c1.
      split; [exact Hsize|]. split; [exact Hw|]. split; [exact Hr|].
      split; [exact Hi|]. rewrite Ew, Er. reflexivity.
  - unfold ret in H. injection H as <- <-. split; [exact Hcall | reflexivity].
Qed.

(** X9.  The receive buffer [Exchange] sets on the connection is the
    request's advertised size converted to [uint16] (so taken modulo
    65536) and raised to 512 if smaller; it always lies between 512 and
    65535. *)
Theorem Exchange_buffer_size (out : Outside) (defaultTimeout : Duration)
    (p : loc) (state : request_Request) (w w' : World) (r : ExchangeResult)
    (conn : dns_Conn) :
  Exchange out defaultTimeout p state w = Ok (r, w') ->
  ex_conn r = Some conn ->
  conn_UDPSize conn = Z.max 512 (req_Size state mod 65536) /\
  512 <= conn_UDPSize conn <= 65535.
Proof.
  intros H Hconn.
  assert (Hmax : conn_UDPSize conn
                 = Z.max dns_MinMsgSize (to_uint16 (req_Size state))).
  { apply Exchange_inv in H as (call & _ & H).
    destruct (lib_dial out call) as [conn0|e].
    - destruct H as (c1 & Hsize & _ & _ & _ & H).
      destruct (conn_WriteMsg out c1 (Req state)); subst r; cbn in Hconn;
        injection Hconn as <-; exact Hsize.
    - subst r. discriminate Hconn. }
  unfold dns_MinMsgSize, to_uint16, uint16_modulus in Hmax.
  change (2 ^ 16) with 65536 in Hmax.
  split; [exact Hmax|]. rewrite Hmax.
  pose proof (Z.mod_pos_bound (req_Size state) 65536 eq_refl). lia.
Qed.

Lemma Exchange_buffer_size_witness :
  exists r conn,
    Exchange Sample.dead_probes (5 * Second) 1%nat
             (mk_Request Sample.reply "udp" 65636) Sample.world
    = Ok (r, Sample.world) /\
    ex_conn r = Some conn /\ conn_UDPSize conn = 512.
Proof.
  eexists. eexists.
  split; [vm_compute; reflexivity|]. split; [reflexivity|].
  apply (Exchange_buffer_size Sample.dead_probes (5 * Second) 1%nat
           (mk_Request Sample.reply "udp" 65636) Sample.world Sample.world
           _ _ eq_refl eq_refl).
Defined.

(** X10.  How [Exchange] ends.  If it obtained no connection, the dial
    failed: the message is [nil] and the error is the dial error.  If it
    obtained one, the connection has been handed to [Close] and carries
    the write deadline (first clock reading plus [defaultTimeout]); then
    either the write failed, and the message is [nil] with the write error
    and no read deadline was set, or the result is exactly what [ReadMsg]
    returned under the read deadline (second clock reading plus
    [defaultTimeout]). *)
Theorem Exchange_result_shape (out : Outside) (defaultTimeout : Duration)
    (p : loc) (state : request_Request) (w w' : World) (r : ExchangeResult) :
  Exchange out defaultTimeout p state w = Ok (r, w') ->
  match ex_conn r with
  | None =>
      ex_msg r = None /\
      exists call e, Dial_call p (req_Proto state) w = Ok (call, w') /\
                     lib_dial out call = inr e /\ ex_err r = Some e
  | Some conn =>
      exists c1,
        conn_writeDeadline c1 = Some (time_Now out 0 + defaultTimeout) /\
        ((conn = Close c1 /\ ex_msg r = None /\
          ex_err r = conn_WriteMsg out c1 (Req state) /\ is_Some (ex_err r))
         \/
         (conn = Close (SetReadDeadline (time_Now out 1 + defaultTimeout) c1) /\
          conn_WriteMsg out c1 (Req state) = None /\
          (ex_msg r, ex_err r)
          = conn_ReadMsg out
              (SetReadDeadline (time_Now out 1 + defaultTimeout) c1)))
  end.
Proof.
  intros H. apply Exchange_inv in H as (call & Hcall & H).
  destruct (lib_dial out call) as [conn0|e] eqn:Ed.
  - destruct H as (c1 & _ & Hw & _ & _ & H).
    destruct (conn_WriteMsg out c1 (Req state)) as [e|] eqn:Ew;
      subst r; cbn [ex_conn ex_msg ex_err]; exists c1; (split; [exact Hw|]).
    + left. split; [reflexivity|]. split; [reflexivity|].
      split; [now rewrite Ew|]. eexists; reflexivity.
    + right. split; [reflexivity|]. split; [exact Ew|].
      now destruct (conn_ReadMsg out _).
  - subst r. cbn. split; [reflexivity|]. exists call, e. now repeat split.
Qed.

Lemma Exchange_result_shape_witness :
  exists r,
    Exchange Sample.live_probes (5 * Second) 2%nat
             (mk_Request Sample.reply "udp" 4096) Sample.world
    = Ok (r, Sample.world) /\
    ex_msg r = None /\ ex_err r = Some "connection refused".
Proof.
  eexists. split; [vm_compute; reflexivity|].
  pose proof (Exchange_result_shape Sample.live_probes (5 * Second) 2%nat
                (mk_Request Sample.reply "udp" 4096) Sample.world Sample.world
                _ eq_refl) as H.
  cbn [ex_conn] in H. destruct H as (Hmsg & _). split; [exact Hmsg | reflexivity].
Defined.



(** ** More on Select *)

(** X12.  On an empty pool [Select] asks no host and no primary policy: it
    returns [nil] when no spray policy is configured and otherwise what the
    spray policy's [Select] returns on the empty pool, whatever the primary
    policy is. *)
Theorem Select_empty_pool (Random : Policy) (hc : HealthCheck) (w : World) :
  hosts hc = [] ->
  (spray hc = None -> Select Random hc w = Ok (None, w)) /\
  (forall s, spray hc = Some s ->
     Select Random hc w = policy_Select s [] (with_call w (policy_name s))) /\
  (forall Random' hc',
     hosts hc' = [] -> spray hc' = spray hc ->
     Select Random' hc' w = Select Random hc w).
Proof.
  intros Hpool.
  assert (Hsel : forall R h, hosts h = [] ->
                   Select R h w = spray_or_nil h [] w).
  { intros R h Hh. unfold Select. rewrite Hh. reflexivity. }
  split; [|split].
  - intros Hs. rewrite (Hsel _ _ Hpool), spray_or_nil_run. now rewrite Hs.
  - intros s Hs. rewrite (Hsel _ _ Hpool), spray_or_nil_run. now rewrite Hs.
  - intros R' hc' Hpool' Hs. rewrite (Hsel _ _ Hpool), (Hsel _ _ Hpool').
    rewrite !spray_or_nil_run. now rewrite Hs.
Qed.

Lemma Select_empty_pool_witness :
  Select Sample.Random (Sample.hc_with [] (Some Sample.Spray) 0) Sample.world
  = Ok (None, with_call Sample.world "spray").
Proof.
  rewrite (proj1 (proj2 (Select_empty_pool Sample.Random
                           (Sample.hc_with [] (Some Sample.Spray) 0)
                           Sample.world eq_refl))
                 Sample.Spray eq_refl).
  reflexivity.
Defined.

Lemma bind_ret_r {A} (m : M A) w : bind m ret w = m w.
Proof. unfold bind, ret. now destruct (m w) as [[a w']|msg]. Qed.

Lemma scan_allDown_app (pre : UpstreamHostPool) :
  forall w (rest : UpstreamHostPool) B (k : bool -> M B),
  Forall (fun p => is_Some (host_objs w !! p)) pre ->
  all_down w pre = true ->
  bind (scan_allDown (pre ++ rest)%list) k w
  = bind (scan_allDown rest) k (with_log w (Down_logs w pre)).
Proof.
  induction pre as [|h pre IH]; intros w rest B k Hok Hall.
  - cbn [app]. unfold Down_logs. cbn. now rewrite with_log_nil.
  - inversion Hok as [|? ? [uh Huh] Hrest]; subst.
    destruct (Down_run w h uh Huh) as (d & Hd & Hrun).
    rewrite all_down_cons in Hall. apply andb_true_iff in Hall as [Hh Hpre].
    apply bool_decide_eq_true in Hh. rewrite Hd in Hh. injection Hh as ->.
    assert (Hlogs : Down_logs w (h :: pre)
                    = (Down_log uh ++ Down_logs w pre)%list).
    { unfold Down_logs. cbn [map concat]. now rewrite Huh. }
    rewrite Hlogs, <- with_log_app.
    change (Down_logs w pre) with (Down_logs (with_log w (Down_log uh)) pre).
    rewrite <- (IH (with_log w (Down_log uh)) rest B k Hrest Hpre).
    cbn [app scan_allDown]. unfold bind at 1 2. rewrite Hrun. reflexivity.
Qed.

(** X13.  The scan for "all down" stops at the first host that is not
    down.  If the hosts before [h] are down and [h] is not, the scan has
    logged the hosts up to [h] and no other, and a [nil] host pointer
    further down the pool does not make it fault.  [Select] then runs the
    [Select] of the primary policy (or of [Random]) on the whole pool: a
    pick that is not [nil] is returned; a [nil] pick, which includes a
    [nil] entry of the pool handed back by the policy, sends [Select] to
    the spray policy when one is configured, and gives [nil] otherwise. *)
Theorem Select_stops_at_first_up_host (Random : Policy) (w : World)
    (pre : UpstreamHostPool) (h : loc) (post : UpstreamHostPool)
    (hc : HealthCheck) :
  Forall (fun p => is_Some (host_objs w !! p)) pre ->
  all_down w pre = true ->
  down_in w h = Some false ->
  hosts hc = (pre ++ h :: post)%list ->
  length (hosts hc) <> 1%nat ->
  let w1 := with_log w (Down_logs w (pre ++ [h])%list) in
  let primary := match policy hc with Some pol => pol | None => Random end in
  scan_allDown (hosts hc) w = Ok (false, w1) /\
  (forall x w2,
     policy_Select primary (hosts hc) (with_call w1 (policy_name primary))
     = Ok (Some x, w2) ->
     is_Some (host_objs w2 !! x) ->
     Select Random hc w = Ok (Some x, w2)) /\
  (forall r w2,
     policy_Select primary (hosts hc) (with_call w1 (policy_name primary))
     = Ok (r, w2) ->
     r = None \/ (exists x, r = Some x /\ host_objs w2 !! x = None) ->
     (spray hc = None -> Select Random hc w = Ok (None, w2)) /\
     (forall s, spray hc = Some s ->
        Select Random hc w
        = policy_Select s (hosts hc) (with_call w2 (policy_name s)))) /\
  (forall msg,
     policy_Select primary (hosts hc) (with_call w1 (policy_name primary))
     = Panic msg ->
     Select Random hc w = Panic msg).
Proof.
  intros Hok Hall Hup Hpool Hlen w1 primary.
  assert (Hh : exists uh, host_objs w !! h = Some uh).
  { unfold down_in in Hup. destruct (host_objs w !! h) as [uh|]; [eauto|].
    discriminate. }
  destruct Hh as [uh Huh].
  assert (Hlogs : Down_logs w (pre ++ [h])%list
                  = (Down_logs w pre ++ Down_log uh)%list).
  { unfold Down_logs. rewrite map_app, concat_app. cbn [map concat].
    now rewrite Huh, app_nil_r. }
  assert (Hscan : scan_allDown (hosts hc) w = Ok (false, w1)).
  { rewrite <- bind_ret_r.
    rewrite Hpool, (scan_allDown_app pre w (h :: post) _ ret Hok Hall).
    destruct (Down_run (with_log w (Down_logs w pre)) h uh Huh)
      as (d & Hd & Hrun).
    change (down_in (with_log w (Down_logs w pre)) h) with (down_in w h) in Hd.
    rewrite Hup in Hd. injection Hd as <-.
    cbn [scan_allDown]. unfold bind at 1 2. rewrite Hrun. cbn [negb].
    unfold ret, w1. now rewrite with_log_app, Hlogs. }
  pose proof (Select_after_scan Random hc w _ _ Hlen Hscan) as Hsel.
  cbv zeta in Hsel. fold primary in Hsel.
  split; [exact Hscan|]. rewrite Hsel.
  split; [|split].
  - intros x w2 -> [ux Hux]. now rewrite Hux.
  - intros r w2 -> Hnil.
    assert (Hb : match r with
                 | Some l => match host_objs w2 !! l with
                             | Some _ => true
                             | None => false
                             end
                 | None => false
                 end = false).
    { destruct Hnil as [-> | (x & -> & Hx)]; [reflexivity | now rewrite Hx]. }
    rewrite Hb, spray_or_nil_run.
    split; [intros ->; reflexivity | intros s ->; reflexivity].
  - intros msg ->. reflexivity.
Qed.

Lemma Select_stops_at_first_up_host_witness :
  Select Sample.Random (Sample.hc_with [2%nat; 1%nat; 9%nat] None 0) Sample.world
  = Ok (Some 1%nat,
        mk_World (host_objs Sample.world) (client_objs Sample.world)
                 (transport_objs Sample.world)
                 [Warn_no_downFunc "192.0.2.2:53";
                  Warn_no_downFunc "192.0.2.1:53"]
                 ["random"] 8%N).
Proof.
  destruct (Select_stops_at_first_up_host Sample.Random Sample.world
              [2%nat] 1%nat [9%nat]
              (Sample.hc_with [2%nat; 1%nat; 9%nat] None 0))
    as (_ & Hpick & _).
  - repeat constructor. eexists; reflexivity.
  - reflexivity.
  - reflexivity.
  - reflexivity.
  - discriminate.
  - apply Hpick; [vm_compute; reflexivity | eexists; reflexivity].
Defined.

(** X14.  A [nil] host pointer that the scan reaches makes [Select] fault.
    If the hosts before [h] are down and [h] is [nil], [Select] faults with
    a nil dereference, in the one-host branch as in the scan, before any
    policy is consulted. *)
Theorem Select_nil_host_faults (Random : Policy) (w : World)
    (pre : UpstreamHostPool) (h : loc) (post : UpstreamHostPool)
    (hc : HealthCheck) :
  Forall (fun p => is_Some (host_objs w !! p)) pre ->
  all_down w pre = true ->
  host_objs w !! h = None ->
  hosts hc = (pre ++ h :: post)%list ->
  Select Random hc w = Panic nil_deref.
Proof.
  intros Hok Hall Hnil Hpool.
  assert (Hdown : forall w0, host_objs w0 = host_objs w ->
                    Down h w0 = Panic nil_deref).
  { intros w0 Hw0. unfold Down, bind, load_host. now rewrite Hw0, Hnil. }
  unfold Select. cbv zeta.
  destruct (bool_decide (length (hosts hc) = 1%nat)) eqn:E.
  - apply bool_decide_eq_true in E. rewrite Hpool in E |- *.
    destruct pre as [|a pre].
    + cbn [app]. cbv beta iota. unfold bind. now rewrite (Hdown w eq_refl).
    + rewrite length_app in E. cbn in E. lia.
  - rewrite Hpool, (scan_allDown_app pre w (h :: post) _ _ Hok Hall).
    cbn [scan_allDown]. unfold bind at 1 2.
    now rewrite (Hdown (with_log w (Down_logs w pre)) eq_refl).
Qed.

Lemma Select_nil_host_faults_witness :
  Select Sample.Random (Sample.hc_with [2%nat; 9%nat; 1%nat] (Some Sample.Spray) 0)
         Sample.world
  = Panic nil_deref.
Proof.
  apply (Select_nil_host_faults Sample.Random Sample.world [2%nat] 9%nat
           [1%nat]).
  - repeat constructor. eexists; reflexivity.
  - reflexivity.
  - reflexivity.
  - reflexivity.
Defined.

Lemma keeps_hosts_Select_witness :
  keeps_hosts (Select (mk_Policy "none" (fun _ => ret None))
                      (Sample.hc_with [2%nat; 1%nat] None 0)).
Proof.
  apply (keeps_hosts_Select (mk_Policy "none" (fun _ => ret None))
           (Sample.hc_with [2%nat; 1%nat] None 0)).
  - intros w a w' H. unfold ret in H. cbn in H. now inversion H.
  - intros pol H. discriminate H.
  - intros s H. discriminate H.
Defined.

(** ** More on the lifecycle *)


(** X16.  [Stop] can be called once per [Start].  After a [Stop] that did
    not fault (it returned, or it is waiting for the worker) a second
    [Stop] faults with "close of closed channel"; a [Start] in between
    installs a fresh channel, and the [Stop] after it does not fault. *)
Theorem Stop_twice_panics (pr pr' : Proc) :
  Stop pr = Stop_returns pr' \/ Stop pr = Stop_waits pr' ->
  Stop pr' = Stop_panics "close of closed channel" /\
  (forall pr'', Start pr' = Ok pr'' -> forall msg, Stop pr'' <> Stop_panics msg).
Proof.
  intros H.
  assert (Hch : stopChan (proc_hc pr') = Some (mk_Chan true)).
  { unfold Stop in H.
    destruct (stopChan (proc_hc pr)) as [[[|]]|]; cbn in H;
      try (destruct H as [H|H]; discriminate H).
    destruct (wg (proc_hc pr) =? 0);
      destruct H as [H|H]; try discriminate H; injection H as <-; reflexivity. }
  split.
  - unfold Stop. now rewrite Hch.
  - intros pr'' Hstart msg.
    pose proof (Start_allocates_stopChan pr' pr'' Hstart) as Hch'.
    unfold Stop. rewrite Hch'. cbn.
    destruct (wg (proc_hc pr'') =? 0); discriminate.
Qed.

Lemma Stop_twice_panics_witness :
  exists pr1 pr2,
    Start (mk_Proc (Sample.hc_with [1%nat] None 0) []) = Ok pr1 /\
    Stop pr1 = Stop_returns pr2 /\
    Stop pr2 = Stop_panics "close of closed channel".
Proof.
  exists (mk_Proc (mk_HealthCheck 0 (Some (mk_Chan false)) [1%nat] None None 3
                                  0 1%nat) []).
  exists (mk_Proc (mk_HealthCheck 0 (Some (mk_Chan true)) [1%nat] None None 3
                                  0 1%nat) []).
  split; [reflexivity|]. split; [reflexivity|].
  exact (proj1 (Stop_twice_panics
                  (mk_Proc (mk_HealthCheck 0 (Some (mk_Chan false)) [1%nat]
                                           None None 3 0 1%nat) [])
                  (mk_Proc (mk_HealthCheck 0 (Some (mk_Chan true)) [1%nat]
                                           None None 3 0 1%nat) [])
                  (or_introl eq_refl))).
Defined.

Lemma probe_cycles_S n pool :
  probe_cycles (S n) pool = (map G_check pool ++ probe_cycles n pool)%list.
Proof. reflexivity. Qed.

Lemma worker_run_select moves : forall pr,
  stop_signalled (proc_hc pr) = false ->
  worker_run moves W_select pr
  = Ok (W_select,
        mk_Proc (proc_hc pr)
                (proc_goroutines pr ++
                 probe_cycles (length (List.filter fst moves))
                              (hosts (proc_hc pr)))).
Proof.
  induction moves as [|[tick take_tick] rest IH]; intros pr Hstop.
  - destruct pr as [hc gs]. cbn. unfold probe_cycles. cbn.
    now rewrite app_nil_r.
  - cbn [worker_run worker_step]. rewrite Hstop. cbn [negb orb].
    rewrite andb_true_r. destruct tick; cbn [List.filter fst].
    + rewrite (IH (healthCheck pr) Hstop). cbn [healthCheck proc_hc
        proc_goroutines length].
      now rewrite probe_cycles_S, app_assoc.
    + exact (IH pr Hstop).
Qed.

(** A worker started with a negative interval runs its immediate probe
    cycle and then faults when it creates its ticker. *)
Lemma worker_faults_on_negative_interval tick take_tick pr :
  checkInterval (proc_hc pr) < 0 ->
  worker_step tick take_tick W_entry pr
  = Panic "non-positive interval for NewTicker".
Proof.
  intros Hneg. unfold worker_step, time_NewTicker. cbn [healthCheck proc_hc].
  now rewrite (proj2 (Z.leb_le _ _)) by lia.
Qed.

(** X18.  With a positive interval, while the stop channel is open the
    worker never returns and never touches the wait group or the channel:
    after its first move and any further moves it sits in its [select], and
    it has launched one probe per host for its immediate first cycle and
    one per host for every tick since, in pool order, and nothing else. *)
Theorem worker_probes_once_per_tick (first : bool * bool)
    (moves : list (bool * bool)) (pr : Proc) :
  0 < checkInterval (proc_hc pr) ->
  stop_signalled (proc_hc pr) = false ->
  worker_run (first :: moves) W_entry pr
  = Ok (W_select,
        mk_Proc (proc_hc pr)
                (proc_goroutines pr ++
                 probe_cycles (S (length (List.filter fst moves)))
                              (hosts (proc_hc pr)))).
Proof.
  intros Hint Hstop. destruct first as [tick take_tick].
  cbn [worker_run worker_step]. cbv zeta.
  unfold time_NewTicker. cbn [healthCheck proc_hc].
  rewrite (proj2 (Z.leb_gt _ _)) by lia.
  rewrite (worker_run_select moves (healthCheck pr) Hstop).
  cbn [healthCheck proc_hc proc_goroutines].
  now rewrite probe_cycles_S, app_assoc.
Qed.

Lemma worker_probes_once_per_tick_witness :
  worker_run [(false, false); (true, false); (false, false); (true, true)]
             W_entry
             (mk_Proc (Sample.hc_with [1%nat; 2%nat] None (30 * Second)) [])
  = Ok (W_select,
        mk_Proc (Sample.hc_with [1%nat; 2%nat] None (30 * Second))
                [G_check 1%nat; G_check 2%nat; G_check 1%nat; G_check 2%nat;
                 G_check 1%nat; G_check 2%nat]).
Proof.
  apply (worker_probes_once_per_tick (false, false)
           [(true, false); (false, false); (true, true)]
           (mk_Proc (Sample.hc_with [1%nat; 2%nat] None (30 * Second)) [])).
  - reflexivity.
  - reflexivity.
Defined.
